(** * Jungle-of-Agents: the matching-and-registry core

    A shallow embedding of [similarity_search.py], [agent_storage.py] and
    [master_agent.py], and the properties of the specification that were
    checked against it; then further properties of these files and of the
    text helpers of [utils.py] and the agent records of [base_agent.py].

    Modelling conventions.
    - A Python [str] is a [string] whose characters are the code points
      U+0000..U+00FF; [str.lower], [str.isspace] and the class [\s] of [re]
      are written out for them.
    - A Python [float] is a real number: the scores live in [R] with exact
      arithmetic, and the literals [0.4], [0.3], [0.09] and [1.0] are the
      decimal fractions. The counts behind a score (sets of tokens, term
      frequencies, dot products) are computed in [nat].
    - A value produced by [json.load] or [json.loads] is a [json]; its
      numbers are the integers. A Python [dict] with string keys is an
      association list in insertion order.
    - A function that can raise returns a [result]; the exceptions are those
      below [Exception].
    - The storage file is its content; opening, reading and writing it
      succeed, and [json.dump] followed by [json.load] gives the value back. *)

From Stdlib Require Import Floats Uint63.
From Stdlib Require Import ZArith Reals Lra String Ascii List DecimalString.
From stdpp Require Import gmap strings list.

Set Warnings "-register-all".
Set Warnings "-inexact-float".

Open Scope string_scope.

(** ** Text: the string methods and regular expressions the scorer uses *)

Module Text.

Definition code (c : ascii) : N := N_of_ascii c.

Definition in_range (lo hi : N) (c : ascii) : bool :=
  ((lo <=? code c) && (code c <=? hi))%N.

(** [str.isspace] on one character, which is also the class [\s] of [re] on
    [str] patterns: TAB..CR, FS..US, SPACE, NEL and NBSP. *)
Definition is_space (c : ascii) : bool :=
  in_range 9 13 c || in_range 28 32 c || (code c =? 133)%N || (code c =? 160)%N.

Definition is_upper (c : ascii) : bool :=
  in_range 65 90 c || (in_range 192 222 c && negb (code c =? 215)%N).

Definition is_lower_az (c : ascii) : bool := in_range 97 122 c.
Definition is_upper_AZ (c : ascii) : bool := in_range 65 90 c.
Definition is_digit (c : ascii) : bool := in_range 48 57 c.

Definition lower_char (c : ascii) : ascii :=
  if is_upper c then ascii_of_N (code c + 32) else c.

(** [text.lower()] *)
Fixpoint lower (s : string) : string :=
  match s with
  | EmptyString => EmptyString
  | String c s' => String (lower_char c) (lower s')
  end.

(** [re.sub(r'[^...]', ' ', text)] for a one-character class [keep]. *)
Fixpoint sub_outside (keep : ascii -> bool) (s : string) : string :=
  match s with
  | EmptyString => EmptyString
  | String c s' =>
      String (if keep c then c else " "%char) (sub_outside keep s')
  end.

(** The class [[a-zA-Z0-9\s]] of the source. *)
Definition class_source (c : ascii) : bool :=
  is_lower_az c || is_upper_AZ c || is_digit c || is_space c.

(** The class [[a-z0-9\s]] of the specification. *)
Definition class_spec (c : ascii) : bool :=
  is_lower_az c || is_digit c || is_space c.

(** [re.sub(r'\s+', ' ', text)]: every maximal run of white space becomes one
    space. [in_run] tells whether the previous character was white space. *)
Fixpoint squeeze (in_run : bool) (s : string) : string :=
  match s with
  | EmptyString => EmptyString
  | String c s' =>
      if is_space c
      then (if in_run then squeeze true s' else String " "%char (squeeze true s'))
      else String c (squeeze false s')
  end.

Definition collapse_spaces (s : string) : string := squeeze false s.

Fixpoint lstrip (s : string) : string :=
  match s with
  | EmptyString => EmptyString
  | String c s' => if is_space c then lstrip s' else s
  end.

Fixpoint rstrip (s : string) : string :=
  match s with
  | EmptyString => EmptyString
  | String c s' =>
      match rstrip s' with
      | EmptyString => if is_space c then EmptyString else String c EmptyString
      | r => String c r
      end
  end.

(** [text.strip()] *)
Definition strip (s : string) : string := rstrip (lstrip s).

Definition starts_word (s : string) : bool :=
  match s with
  | EmptyString => false
  | String c _ => negb (is_space c)
  end.

(** [text.split()]: the maximal runs of characters that are not white space. *)
Fixpoint split (s : string) : list string :=
  match s with
  | EmptyString => []
  | String c s' =>
      if is_space c then split s'
      else if starts_word s'
           then match split s' with
                | w :: ws => String c w :: ws
                | [] => [String c EmptyString]
                end
           else String c EmptyString :: split s'
  end.

End Text.

(** *** The shape of a normalised text *)

Module TextShape.
Import Text.

(** A character of a normalised text: a lower-case letter or a digit. *)
Definition word_char (c : ascii) : bool := is_lower_az c || is_digit c.

Definition is_blank (c : ascii) : bool := Ascii.eqb c " ".

(** [tidy prev s]: [s] is made of word characters and single spaces, and does
    not start with a space when [prev] says that a space came before it. *)
Fixpoint tidy (prev : bool) (s : string) : bool :=
  match s with
  | EmptyString => true
  | String c s' =>
      if is_blank c then negb prev && tidy true s'
      else word_char c && tidy false s'
  end.

Fixpoint no_trailing_space (s : string) : bool :=
  match s with
  | EmptyString => true
  | String c EmptyString => negb (is_space c)
  | String _ s' => no_trailing_space s'
  end.

(** The normal form: what [_normalize_text] produces and leaves unchanged. *)
Definition normal (s : string) : Prop :=
  tidy true s = true /\ no_trailing_space s = true.

Fixpoint all_chars (p : ascii -> bool) (s : string) : bool :=
  match s with
  | EmptyString => true
  | String c s' => p c && all_chars p s'
  end.

(** A word of a normalised text: not empty, letters and digits only. *)
Definition is_word (w : string) : Prop :=
  w <> EmptyString /\ all_chars word_char w = true.

End TextShape.

(** ** Python values and exceptions *)

Module Py.
Import Text.

(** What [json.load] and [json.loads] return. Numbers are the integers; an
    object keeps its members in insertion order, as a Python [dict] does. *)
Inductive json : Type :=
  | JNull
  | JBool (b : bool)
  | JNum (z : Z)
  | JStr (s : string)
  | JArr (l : list json)
  | JObj (kvs : list (string * json)).

(** [Dict[str, Any]] *)
Definition dict : Type := list (string * json).

Fixpoint lookup_key (k : string) (d : dict) : option json :=
  match d with
  | [] => None
  | (k', v) :: d' => if String.eqb k k' then Some v else lookup_key k d'
  end.

(** [d.get(k, default)] *)
Definition get_or (k : string) (default : json) (d : dict) : json :=
  match lookup_key k d with
  | Some v => v
  | None => default
  end.

(** [d.get(k)]: [None] when the key is absent. *)
Definition get (k : string) (d : dict) : json := get_or k JNull d.

(** [k in d] *)
Definition has_key (k : string) (d : dict) : bool :=
  match lookup_key k d with
  | Some _ => true
  | None => false
  end.

(** [d[k] = v]: an existing key keeps its position. *)
Fixpoint set_key (k : string) (v : json) (d : dict) : dict :=
  match d with
  | [] => [(k, v)]
  | (k', v') :: d' =>
      if String.eqb k k' then (k, v) :: d' else (k', v') :: set_key k v d'
  end.

(** [bool(v)] *)
Definition truthy (v : json) : bool :=
  match v with
  | JNull => false
  | JBool b => b
  | JNum z => negb (z =? 0)%Z
  | JStr s => negb (String.eqb s "")
  | JArr l => match l with [] => false | _ => true end
  | JObj d => match d with [] => false | _ => true end
  end.

(** [bool(d)] for a dict. *)
Definition nonempty (d : dict) : bool :=
  match d with
  | [] => false
  | _ => true
  end.

(** [a == b]. [True == 1] and [False == 0] hold in Python; two dicts are equal
    when they have the same keys with equal values, in any order. *)
Fixpoint py_eq (a b : json) {struct a} : bool :=
  match a, b with
  | JNull, JNull => true
  | JBool x, JBool y => Bool.eqb x y
  | JBool x, JNum z => (Z.b2z x =? z)%Z
  | JNum z, JBool x => (z =? Z.b2z x)%Z
  | JNum x, JNum y => (x =? y)%Z
  | JStr x, JStr y => String.eqb x y
  | JArr l1, JArr l2 =>
      (fix all2 (l1 l2 : list json) : bool :=
         match l1, l2 with
         | [], [] => true
         | x :: l1', y :: l2' => py_eq x y && all2 l1' l2'
         | _, _ => false
         end) l1 l2
  | JObj d1, JObj d2 =>
      Nat.eqb (length d1) (length d2) &&
      (fix all1 (d : dict) : bool :=
         match d with
         | [] => true
         | (k, v) :: d' =>
             match lookup_key k d2 with
             | Some v' => py_eq v v'
             | None => false
             end && all1 d'
         end) d1
  | _, _ => false
  end.

(** [hash(v)] succeeds: lists and dicts are unhashable. *)
Definition hashable (v : json) : bool :=
  match v with
  | JArr _ | JObj _ => false
  | _ => true
  end.

(** *** [str] and [repr] *)

Fixpoint join (sep : string) (l : list string) : string :=
  match l with
  | [] => ""
  | [s] => s
  | s :: l' => s ++ sep ++ join sep l'
  end.

Fixpoint has_char (c : ascii) (s : string) : bool :=
  match s with
  | EmptyString => false
  | String c' s' => Ascii.eqb c c' || has_char c s'
  end.

Definition hex_digit (n : N) : ascii :=
  if (n <? 10)%N then ascii_of_N (48 + n) else ascii_of_N (87 + n).

Definition hex_escape (c : ascii) : string :=
  String "\" (String "x" (String (hex_digit (code c / 16))
                            (String (hex_digit (code c mod 16)) ""))).

(** Not printable: the control characters, DEL, U+0080..U+00A0 and U+00AD. *)
Definition printable (c : ascii) : bool :=
  negb (code c <? 32)%N && negb (in_range 127 160 c) && negb (code c =? 173)%N.

Definition repr_char (quote c : ascii) : string :=
  if Ascii.eqb c quote || Ascii.eqb c "\" then String "\" (String c "")
  else if (code c =? 9)%N then "\t"
  else if (code c =? 10)%N then "\n"
  else if (code c =? 13)%N then "\r"
  else if printable c then String c ""
  else hex_escape c.

Fixpoint repr_chars (quote : ascii) (s : string) : string :=
  match s with
  | EmptyString => ""
  | String c s' => repr_char quote c ++ repr_chars quote s'
  end.

(** [repr(s)] for a string: double quotes only when [s] has a single quote
    and no double quote. *)
Definition double_quote : ascii := ascii_of_N 34.

Definition repr_str (s : string) : string :=
  let quote : ascii :=
    if has_char "'" s && negb (has_char double_quote s)
    then double_quote else "'"%char in
  String quote (repr_chars quote s ++ String quote "").

Definition str_int (z : Z) : string := NilZero.string_of_int (Z.to_int z).

(** [repr(v)] *)
Fixpoint py_repr (v : json) : string :=
  match v with
  | JNull => "None"
  | JBool true => "True"
  | JBool false => "False"
  | JNum z => str_int z
  | JStr s => repr_str s
  | JArr l => "[" ++ join ", " (List.map py_repr l) ++ "]"
  | JObj d =>
      "{" ++ join ", " (List.map (fun kv => repr_str (fst kv) ++ ": " ++ py_repr (snd kv)) d)
          ++ "}"
  end.

(** [str(v)], which an f-string applies to a formatted value. *)
Definition py_str (v : json) : string :=
  match v with
  | JStr s => s
  | _ => py_repr v
  end.

(** *** Exceptions *)

Inductive exn_class : Type :=
  | JSONDecodeError
  | OSError
  | TypeError
  | AttributeError
  | KeyError
  | ValueError
  | OtherError (name : string).

(** An exception below [Exception]; [message] is [str(e)]. *)
Record exn : Type := Exn { class : exn_class; message : string }.

Inductive result (A : Type) : Type :=
  | Ok (a : A)
  | Raise (e : exn).
Arguments Ok {A} a.
Arguments Raise {A} e.

Definition bind {A B : Type} (r : result A) (k : A -> result B) : result B :=
  match r with
  | Ok a => k a
  | Raise e => Raise e
  end.

Declare Scope result_scope.
Delimit Scope result_scope with res.
Notation "'let*' x ':=' c 'in' k" := (bind c (fun x => k))
  (at level 10, x name, c at level 100, k at level 200) : result_scope.

(** [try: body] with [except Exception as e: handler(e)]. *)
Definition try_except {A : Type} (body : result A) (handler : exn -> result A)
    : result A :=
  match body with
  | Ok a => Ok a
  | Raise e => handler e
  end.

(** The same when every path of the handler returns a value. *)
Definition try_value {A : Type} (body : result A) (handler : exn -> A) : A :=
  match body with
  | Ok a => a
  | Raise e => handler e
  end.

Definition type_name (v : json) : string :=
  match v with
  | JNull => "NoneType"
  | JBool _ => "bool"
  | JNum _ => "int"
  | JStr _ => "str"
  | JArr _ => "list"
  | JObj _ => "dict"
  end.

Definition no_attribute (v : json) (attr : string) : exn :=
  Exn AttributeError
      ("'" ++ type_name v ++ "' object has no attribute '" ++ attr ++ "'").

Fixpoint chars (s : string) : list json :=
  match s with
  | EmptyString => []
  | String c s' => JStr (String c "") :: chars s'
  end.

(** [for x in v]: a list yields its elements, a string its characters, a dict
    its keys; nothing else is iterable. *)
Definition iterate (v : json) : result (list json) :=
  match v with
  | JArr l => Ok l
  | JStr s => Ok (chars s)
  | JObj d => Ok (List.map (fun kv => JStr (fst kv)) d)
  | _ => Raise (Exn TypeError ("'" ++ type_name v ++ "' object is not iterable"))
  end.

Fixpoint is_substring (s t : string) : bool :=
  String.prefix s t ||
  match t with
  | EmptyString => false
  | String _ t' => is_substring s t'
  end.

(** [k in v] for a string [k]. *)
Definition contains (k : string) (v : json) : result bool :=
  match v with
  | JObj d => Ok (has_key k d)
  | JArr l => Ok (existsb (py_eq (JStr k)) l)
  | JStr s => Ok (is_substring k s)
  | _ => Raise (Exn TypeError
                 ("argument of type '" ++ type_name v ++ "' is not iterable"))
  end.

(** [v[k]] for a string [k]. *)
Definition get_item (k : string) (v : json) : result json :=
  match v with
  | JObj d =>
      match lookup_key k d with
      | Some x => Ok x
      | None => Raise (Exn KeyError (repr_str k))
      end
  | JArr _ => Raise (Exn TypeError "list indices must be integers or slices, not str")
  | JStr _ => Raise (Exn TypeError "string indices must be integers, not 'str'")
  | _ => Raise (Exn TypeError ("'" ++ type_name v ++ "' object is not subscriptable"))
  end.

(** [v[k] = x] for a string [k]: the dict after the assignment. *)
Definition set_item (k : string) (x : json) (v : json) : result dict :=
  match v with
  | JObj d => Ok (set_key k x d)
  | JArr _ => Raise (Exn TypeError "list indices must be integers or slices, not str")
  | _ => Raise (Exn TypeError
                 ("'" ++ type_name v ++ "' object does not support item assignment"))
  end.

(** [v.get(k, default)] *)
Definition get_attr_get (k : string) (default : json) (v : json) : result json :=
  match v with
  | JObj d => Ok (get_or k default d)
  | _ => Raise (no_attribute v "get")
  end.

End Py.

(** ** similarity_search.py *)

Module SimilaritySearch.
Import Text Py.

(** [SimilaritySearch._normalize_text] *)
Definition _normalize_text (text : string) : string :=
  let text := lower text in
  let text := sub_outside class_source text in
  let text := collapse_spaces text in
  strip text.

(** The normaliser as the specification words it: lower-case, replace what is
    outside [[a-z0-9\s]] by a space, collapse white-space runs, trim. *)
Definition normalize_spec (text : string) : string :=
  strip (collapse_spaces (sub_outside class_spec (lower text))).

(** [self._normalize_text(text).split()] *)
Definition words (text : string) : list string := split (_normalize_text text).

(** [not s] for a set. *)
Definition is_empty (s : gset string) : bool := bool_decide (s = ∅).

(** [set(self._normalize_text(text).split())] *)
Definition tokens (text : string) : gset string := list_to_set (words text).

(** [SimilaritySearch._jaccard_similarity] *)
Definition _jaccard_similarity (text1 text2 : string) : R :=
  let tokens1 := tokens text1 in
  let tokens2 := tokens text2 in
  if is_empty tokens1 && is_empty tokens2 then 1%R
  else if is_empty tokens1 || is_empty tokens2 then 0%R
  else
    let intersection := size (tokens1 ∩ tokens2) in
    let union := size (tokens1 ∪ tokens2) in
    if (0 <? union)%nat then (INR intersection / INR union)%R else 0%R.

(** [len(word) > 3] *)
Definition is_keyword (word : string) : bool := (3 <? String.length word)%nat.

(** [set(word for word in self._normalize_text(text).split() if len(word) > 3)] *)
Definition keywords (text : string) : gset string :=
  list_to_set (List.filter is_keyword (words text)).

(** [SimilaritySearch._keyword_overlap_similarity] *)
Definition _keyword_overlap_similarity (text1 text2 : string) : R :=
  let keywords1 := keywords text1 in
  let keywords2 := keywords text2 in
  if is_empty keywords1 && is_empty keywords2 then 1%R
  else if is_empty keywords1 || is_empty keywords2 then 0%R
  else
    let overlap := size (keywords1 ∩ keywords2) in
    let max_possible := Nat.max (size keywords1) (size keywords2) in
    if (0 <? max_possible)%nat then (INR overlap / INR max_possible)%R else 0%R.

(** [words.count(word)] *)
Definition count (word : string) (ws : list string) : nat :=
  length (List.filter (String.eqb word) ws).

(** [np.dot] of two integer vectors. *)
Fixpoint dot (v1 v2 : list nat) : nat :=
  match v1, v2 with
  | x :: v1', y :: v2' => x * y + dot v1' v2'
  | _, _ => 0
  end.

(** [np.linalg.norm] of an integer vector. *)
Definition norm (v : list nat) : R := sqrt (INR (dot v v)).

(** [list(set(words1 + words2))] *)
Definition vocabulary (words1 words2 : list string) : list string :=
  elements (list_to_set (words1 ++ words2) : gset string).

(** [np.array([words.count(word) for word in vocab])] *)
Definition frequencies (ws vocab : list string) : list nat :=
  List.map (fun word => count word ws) vocab.

(** [SimilaritySearch._cosine_similarity_simple] *)
Definition _cosine_similarity_simple (text1 text2 : string) : R :=
  let words1 := words text1 in
  let words2 := words text2 in
  let vocab := vocabulary words1 words2 in
  match vocab with
  | [] => 1%R
  | _ =>
      let vec1 := frequencies words1 vocab in
      let vec2 := frequencies words2 vocab in
      let dot_product := dot vec1 vec2 in
      let magnitude1 := norm vec1 in
      let magnitude2 := norm vec2 in
      if Req_dec_T magnitude1 0 then 0%R
      else if Req_dec_T magnitude2 0 then 0%R
      else (INR dot_product / (magnitude1 * magnitude2))%R
  end.

(** The text an agent is compared by:
    [f"{agent.get('description', '')} {agent.get('task_type', '')} {agent.get('name', '')}"] *)
Definition agent_text (agent : dict) : string :=
  py_str (get_or "description" (JStr "") agent) ++ " " ++
  py_str (get_or "task_type" (JStr "") agent) ++ " " ++
  py_str (get_or "name" (JStr "") agent).

(** [sum(score * weight for score, weight in zip(scores, weights))] *)
Fixpoint weighted_sum (scores weights : list R) : R :=
  match scores, weights with
  | score :: scores', weight :: weights' =>
      (score * weight + weighted_sum scores' weights')%R
  | _, _ => 0%R
  end.

(** [SimilaritySearch._calculate_similarity] *)
Definition _calculate_similarity (query : string) (agent : dict) : R :=
  let agent_text := agent_text agent in
  let scores := [ _jaccard_similarity query agent_text;
                  _keyword_overlap_similarity query agent_text;
                  _cosine_similarity_simple query agent_text ] in
  let weights := [0.4; 0.3; 0.3]%R in
  let weighted_score := weighted_sum scores weights in
  Rmin weighted_score 1.0.

(** One turn of the loop of [find_similar_agent], on the pair
    [(best_agent, best_score)]. *)
Definition scan_step (score_of : dict -> R) (best : option dict * R)
    (agent : dict) : option dict * R :=
  let score := score_of agent in
  if Rgt_dec score (snd best) then (Some agent, score) else best.

(** The loop of [find_similar_agent], from [best_agent = None] and
    [best_score = 0.09]. *)
Definition scan (score_of : dict -> R) (agents : list dict) : option dict * R :=
  fold_left (scan_step score_of) agents (None, 0.09%R).

(** [SimilaritySearch.find_similar_agent]; [similarity_threshold] is the
    attribute set by the constructor. *)
Definition find_similar_agent (similarity_threshold : R) (query_description : string)
    (agents : list dict) : option dict :=
  match agents with
  | [] => None
  | _ =>
      let '(best_agent, best_score) :=
        scan (_calculate_similarity query_description) agents in
      if Rge_dec best_score similarity_threshold then
        match best_agent with
        | Some agent => if nonempty agent then Some agent else None
        | None => None
        end
      else None
  end.

(** An entry of the list [get_similarity_scores] builds, before the list is
    sorted: the agent, its [similarity_score] and [meets_threshold]. *)
Definition similarity_entry (similarity_threshold : R) (query_description : string)
    (agent : dict) : dict * R * bool :=
  let score := _calculate_similarity query_description agent in
  (agent, score, if Rge_dec score similarity_threshold then true else false).

(** The default of the constructor argument [similarity_threshold]. *)
Definition default_threshold : R := 0.09%R.

(** [earliest_best score_of agents i a]: [a] is the record at index [i], no
    record scores more than [a], and every record before [i] scores less. *)
Definition earliest_best (score_of : dict -> R) (agents : list dict)
    (i : nat) (a : dict) : Prop :=
  agents !! i = Some a /\
  (forall j b, agents !! j = Some b -> (score_of b <= score_of a)%R) /\
  (forall j b, (j < i)%nat -> agents !! j = Some b -> (score_of b < score_of a)%R).

(** [results.sort(key=lambda x: x["similarity_score"], reverse=True)] puts
    [x] into a list that is already sorted. The sort of Python is stable, also
    with [reverse=True]: an entry goes behind the entries of the same score
    that came before it. *)
Fixpoint insert_by_score (x : dict * R * bool) (sorted : list (dict * R * bool))
    : list (dict * R * bool) :=
  match sorted with
  | [] => [x]
  | y :: rest =>
      if Rgt_dec (snd (fst x)) (snd (fst y)) then x :: sorted
      else y :: insert_by_score x rest
  end.

Definition sort_by_score (results : list (dict * R * bool))
    : list (dict * R * bool) :=
  fold_left (fun sorted x => insert_by_score x sorted) results [].

(** [SimilaritySearch.get_similarity_scores] *)
Definition get_similarity_scores (similarity_threshold : R)
    (query_description : string) (agents : list dict) : list (dict * R * bool) :=
  sort_by_score
    (List.map (similarity_entry similarity_threshold query_description) agents).

(** A list of entries by decreasing score. *)
Fixpoint decreasing (l : list (dict * R * bool)) : Prop :=
  match l with
  | [] => True
  | x :: rest =>
      Forall (fun y => (snd (fst y) <= snd (fst x))%R) rest /\ decreasing rest
  end.

End SimilaritySearch.

(** ** similarity_search.py in binary64 *)

(** The scores as the code computes them, in the arithmetic of [float] and
    [np.float64]. The counts are integers and exact; a count becomes a
    binary64 number where the code divides it or takes a root of it. *)
Module Binary64.
Import Text Py SimilaritySearch.

(** [float(n)] for a count [n]; the counts of a text are below 2^53, where
    the conversion is exact. *)
Definition of_count (n : nat) : float :=
  PrimFloat.of_uint63 (Uint63.of_Z (Z.of_nat n)).

(** [SimilaritySearch._jaccard_similarity] *)
Definition _jaccard_similarity (text1 text2 : string) : float :=
  let tokens1 := tokens text1 in
  let tokens2 := tokens text2 in
  if is_empty tokens1 && is_empty tokens2 then 1.0%float
  else if is_empty tokens1 || is_empty tokens2 then 0.0%float
  else
    let intersection := size (tokens1 ∩ tokens2) in
    let union := size (tokens1 ∪ tokens2) in
    if (0 <? union)%nat then (of_count intersection / of_count union)%float
    else 0.0%float.

(** [SimilaritySearch._keyword_overlap_similarity] *)
Definition _keyword_overlap_similarity (text1 text2 : string) : float :=
  let keywords1 := keywords text1 in
  let keywords2 := keywords text2 in
  if is_empty keywords1 && is_empty keywords2 then 1.0%float
  else if is_empty keywords1 || is_empty keywords2 then 0.0%float
  else
    let overlap := size (keywords1 ∩ keywords2) in
    let max_possible := Nat.max (size keywords1) (size keywords2) in
    if (0 <? max_possible)%nat then (of_count overlap / of_count max_possible)%float
    else 0.0%float.

(** [np.linalg.norm] of an integer vector: the root of the sum of the
    squares, which is an integer. *)
Definition norm (v : list nat) : float := PrimFloat.sqrt (of_count (dot v v)).

(** [SimilaritySearch._cosine_similarity_simple] *)
Definition _cosine_similarity_simple (text1 text2 : string) : float :=
  let words1 := words text1 in
  let words2 := words text2 in
  let vocab := vocabulary words1 words2 in
  match vocab with
  | [] => 1.0%float
  | _ =>
      let vec1 := frequencies words1 vocab in
      let vec2 := frequencies words2 vocab in
      let dot_product := dot vec1 vec2 in
      let magnitude1 := norm vec1 in
      let magnitude2 := norm vec2 in
      if (magnitude1 =? 0)%float || (magnitude2 =? 0)%float then 0.0%float
      else (of_count dot_product / (magnitude1 * magnitude2))%float
  end.

(** [sum(score * weight for score, weight in zip(scores, weights))]: [sum]
    adds from the left, to [total]. *)
Fixpoint weighted_sum (total : float) (scores weights : list float) : float :=
  match scores, weights with
  | score :: scores', weight :: weights' =>
      weighted_sum (total + score * weight)%float scores' weights'
  | _, _ => total
  end.

(** [min(a, b)]: [b] when [b < a], else [a]. *)
Definition min (a b : float) : float := if (b <? a)%float then b else a.

(** The last two lines of [_calculate_similarity], on the three scores. *)
Definition weighted_score (scores : list float) : float :=
  weighted_sum 0 scores [0.4; 0.3; 0.3]%float.

(** [SimilaritySearch._calculate_similarity] *)
Definition _calculate_similarity (query : string) (agent : dict) : float :=
  let agent_text := agent_text agent in
  let scores := [ _jaccard_similarity query agent_text;
                  _keyword_overlap_similarity query agent_text;
                  _cosine_similarity_simple query agent_text ] in
  min (weighted_score scores) 1.0.

(** One turn of the loop of [find_similar_agent]: [score > best_score]. *)
Definition scan_step (score_of : dict -> float) (best : option dict * float)
    (agent : dict) : option dict * float :=
  let score := score_of agent in
  if (snd best <? score)%float then (Some agent, score) else best.

(** The loop of [find_similar_agent], from [best_agent = None] and
    [best_score = 0.09]. *)
Definition scan (score_of : dict -> float) (agents : list dict)
    : option dict * float :=
  fold_left (scan_step score_of) agents (None, 0.09%float).

(** [SimilaritySearch.find_similar_agent]:
    [best_score >= self.similarity_threshold and best_agent]. *)
Definition find_similar_agent (similarity_threshold : float)
    (query_description : string) (agents : list dict) : option dict :=
  match agents with
  | [] => None
  | _ =>
      let '(best_agent, best_score) :=
        scan (_calculate_similarity query_description) agents in
      if (similarity_threshold <=? best_score)%float then
        match best_agent with
        | Some agent => if nonempty agent then Some agent else None
        | None => None
        end
      else None
  end.

End Binary64.
(** ** agent_storage.py *)

Module AgentStorage.
Import Py.

(** The storage file: absent, bytes that do not decode as text ([reason] is
    the message of the [UnicodeDecodeError]), a text [json.load] rejects, or
    a text that [json.load] reads as [data]. [json.dump(data, f)] writes
    [Parsed data]. *)
Inductive file : Type :=
  | Missing
  | Undecodable (reason : string)
  | Unparsable
  | Parsed (data : json).

(** [with open(self.storage_file, 'r') as f: data = json.load(f)] *)
Definition load (f : file) : result json :=
  match f with
  | Missing => Raise (Exn OSError "No such file or directory")
  | Undecodable reason => Raise (Exn (OtherError "UnicodeDecodeError") reason)
  | Unparsable => Raise (Exn JSONDecodeError "Expecting value")
  | Parsed data => Ok data
  end.

(** [{"agents": []}] *)
Definition empty_store : json := JObj [("agents", JArr [])].

(** The classes named by [except (json.JSONDecodeError, IOError)]. *)
Definition decode_or_io_error (e : exn) : bool :=
  match class e with
  | JSONDecodeError | OSError => true
  | _ => false
  end.

(** [AgentStorage._ensure_storage_file], which the constructor runs: the
    outcome and the file it leaves. *)
Definition _ensure_storage_file (f : file) : result unit * file :=
  match f with
  | Missing => (Ok tt, Parsed empty_store)
  | _ =>
      let validated : result file :=
        (let* data := load f in
         let* present := contains "agents" data in
         if negb present
         then let* data := set_item "agents" (JArr []) data in Ok (Parsed (JObj data))
         else Ok f)%res in
      match validated with
      | Ok f' => (Ok tt, f')
      | Raise e =>
          if decode_or_io_error e then (Ok tt, Parsed empty_store)
          else (Raise e, f)
      end
  end.

(** The loop of [save_agent]: the index of the first record whose name equals
    [name]. A record that is not a dict has no [get]. *)
Fixpoint find_existing (name : json) (agents : list json) (i : nat)
    : result (option nat) :=
  match agents with
  | [] => Ok None
  | existing_agent :: rest =>
      match existing_agent with
      | JObj d =>
          if py_eq (get "name" d) name then Ok (Some i)
          else find_existing name rest (S i)
      | v => Raise (no_attribute v "get")
      end
  end.

(** The update of [data["agents"]] in [save_agent]. Only a list gets through:
    a str or a dict iterates over strs, which have no [get], and has no
    [append] when it is empty. *)
Definition upsert (agent : dict) (agents : json) : result json :=
  match agents with
  | JArr l =>
      (let* existing_agent_index := find_existing (get "name" agent) l 0 in
       match existing_agent_index with
       | Some i => Ok (JArr (<[i := JObj agent]> l))
       | None => Ok (JArr (l ++ [JObj agent]))
       end)%res
  | other =>
      (let* items := iterate other in
       match items with
       | [] => Raise (no_attribute other "append")
       | x :: _ => Raise (no_attribute x "get")
       end)%res
  end.

(** [AgentStorage.save_agent]: the returned flag and the file it leaves. *)
Definition save_agent (agent : dict) (f : file) : bool * file :=
  let saved : result file :=
    (let* data := load f in
     let* agents := get_item "agents" data in
     let* agents := upsert agent agents in
     let* data := set_item "agents" agents data in
     Ok (Parsed (JObj data)))%res in
  match saved with
  | Ok f' => (true, f')
  | Raise _ => (false, f)
  end.

(** [AgentStorage.list_agents] *)
Definition list_agents (f : file) : json :=
  try_value (let* data := load f in get_attr_get "agents" (JArr []) data)%res
            (fun _ => JArr []).

(** [len(v)] *)
Definition len (v : json) : result nat :=
  match v with
  | JArr l => Ok (length l)
  | JStr s => Ok (String.length s)
  | JObj d => Ok (length d)
  | _ => Raise (Exn TypeError ("object of type '" ++ type_name v ++ "' has no len()"))
  end.

(** The dict [type_counts]: keys are compared with [==], and a key keeps the
    place and the spelling of its first insertion. *)
Definition counts : Type := list (json * nat).

(** [type_counts.get(key, 0)] *)
Fixpoint counts_get (key : json) (c : counts) : nat :=
  match c with
  | [] => 0
  | (k, n) :: c' => if py_eq key k then n else counts_get key c'
  end.

(** [type_counts[key] = n] *)
Fixpoint counts_set (key : json) (n : nat) (c : counts) : counts :=
  match c with
  | [] => [(key, n)]
  | (k, m) :: c' =>
      if py_eq key k then (k, n) :: c' else (k, m) :: counts_set key n c'
  end.

(** The loop of [get_storage_stats]. *)
Fixpoint count_types (agents : list json) (type_counts : counts) : result counts :=
  match agents with
  | [] => Ok type_counts
  | agent :: rest =>
      (let* task_type := get_attr_get "task_type" (JStr "unknown") agent in
       if hashable task_type
       then count_types rest
              (counts_set task_type (counts_get task_type type_counts + 1) type_counts)
       else Raise (Exn TypeError ("unhashable type: '" ++ type_name task_type ++ "'")))%res
  end.

(** The dict [get_storage_stats] returns, without the file name. *)
Record stats : Type := Stats {
  total_agents : nat;
  agents_by_type : counts;
  file_exists : bool;
  error : option string
}.

(** [os.path.exists(self.storage_file)] *)
Definition exists_ (f : file) : bool :=
  match f with
  | Missing => false
  | _ => true
  end.

(** [AgentStorage.get_storage_stats] *)
Definition get_storage_stats (f : file) : stats :=
  let agents := list_agents f in
  try_value
    (let* items := iterate agents in
     let* type_counts := count_types items [] in
     let* total := len agents in
     Ok (Stats total type_counts (exists_ f) None))%res
    (fun e => Stats 0 [] false (Some (message e))).

(** The sum of the values of [agents_by_type]. *)
Definition counts_total (c : counts) : nat := sum_list (List.map snd c).

(** The task type a record is counted under. *)
Definition counted_type (record : dict) : json :=
  get_or "task_type" (JStr "unknown") record.

(** The records of [records] whose name equals the name of [agent]. *)
Definition same_name (agent record : dict) : bool :=
  py_eq (get "name" record) (get "name" agent).

(** The index of the first element that satisfies [p]. *)
Fixpoint first_index {A : Type} (p : A -> bool) (l : list A) : option nat :=
  match l with
  | [] => None
  | x :: l' => if p x then Some 0 else option_map S (first_index p l')
  end.

(** A file holding [records] under ["agents"], among the other members of
    [data]. *)
Definition holds (data : dict) (records : list dict) : Prop :=
  lookup_key "agents" data = Some (JArr (List.map JObj records)).

(** The loop of [get_agent]: the first record whose name equals
    [agent_name]. *)
Fixpoint find_named (agent_name : json) (agents : list json) : result (option dict) :=
  match agents with
  | [] => Ok None
  | agent :: rest =>
      match agent with
      | JObj d =>
          if py_eq (get "name" d) agent_name then Ok (Some d)
          else find_named agent_name rest
      | v => Raise (no_attribute v "get")
      end
  end.

(** [AgentStorage.get_agent] *)
Definition get_agent (agent_name : string) (f : file) : option dict :=
  try_value
    (let* data := load f in
     let* agents := get_item "agents" data in
     let* items := iterate agents in
     find_named (JStr agent_name) items)%res
    (fun _ => None).

(** [[agent for agent in agents if agent.get("name") != agent_name]] *)
Fixpoint without_name (agent_name : json) (agents : list json) : result (list json) :=
  match agents with
  | [] => Ok []
  | agent :: rest =>
      match agent with
      | JObj d =>
          (let* kept := without_name agent_name rest in
           Ok (if py_eq (get "name" d) agent_name then kept else agent :: kept))%res
      | v => Raise (no_attribute v "get")
      end
  end.

(** [AgentStorage.delete_agent]: the returned flag and the file it leaves. *)
Definition delete_agent (agent_name : string) (f : file) : bool * file :=
  try_value
    (let* data := load f in
     let* agents := get_item "agents" data in
     let* original_count := len agents in
     let* items := iterate agents in
     let* kept := without_name (JStr agent_name) items in
     let* data := set_item "agents" (JArr kept) data in
     if (length kept <? original_count)%nat
     then Ok (true, Parsed (JObj data))
     else Ok (false, f))%res
    (fun _ => (false, f)).

(** The comprehension of [get_agents_by_type]:
    [agent.get("task_type", "").lower() == task_type.lower()]. *)
Fixpoint of_type (task_type : string) (agents : list json) : result (list json) :=
  match agents with
  | [] => Ok []
  | agent :: rest =>
      (let* t := get_attr_get "task_type" (JStr "") agent in
       match t with
       | JStr s =>
           let* matching := of_type task_type rest in
           Ok (if String.eqb (Text.lower s) (Text.lower task_type)
               then agent :: matching else matching)
       | v => Raise (no_attribute v "lower")
       end)%res
  end.

(** [AgentStorage.get_agents_by_type] *)
Definition get_agents_by_type (task_type : string) (f : file) : list json :=
  try_value
    (let* items := iterate (list_agents f) in of_type task_type items)%res
    (fun _ => []).

(** The name of a record is [agent_name]. *)
Definition named (agent_name : string) (record : dict) : bool :=
  py_eq (get "name" record) (JStr agent_name).

(** The records [save_agent] leaves, from the records it finds. *)
Definition saved (agent : dict) (records : list dict) : list dict :=
  match first_index (same_name agent) records with
  | Some i => <[i := agent]> records
  | None => records ++ [agent]
  end.

(** No two records of the list have equal names. *)
Definition distinct_names (records : list dict) : Prop :=
  forall j k r r', j <> k -> records !! j = Some r -> records !! k = Some r' ->
                   same_name r r' = false.

(** The task type of a record is a string that equals [task_type] up to
    letter case. *)
Definition has_type (task_type : string) (record : dict) : bool :=
  match get_or "task_type" (JStr "") record with
  | JStr s => String.eqb (Text.lower s) (Text.lower task_type)
  | _ => false
  end.

(** The task type of a record is absent or a string. *)
Definition typed_by_string (record : dict) : bool :=
  match get_or "task_type" (JStr "") record with
  | JStr _ => true
  | _ => false
  end.

End AgentStorage.
(** ** master_agent.py *)

Module MasterAgent.
Import Py AgentStorage SimilaritySearch.

(** One call of [self.client.models.generate_content]: it raises, or it
    returns a response whose [text] is a string or [None]. *)
Inductive outcome : Type :=
  | Fails (e : exn)
  | Responds (text : option string).

(** The external capabilities, each a function of what its prompt is built
    from: the Analyzer of the user prompt, the Creator of the task analysis,
    the Responder of the agent record, when there is one, and the user
    prompt. *)
Record capabilities : Type := Capabilities {
  analyzer : string -> outcome;
  creator : dict -> outcome;
  responder : option dict -> string -> outcome
}.

Definition generate_content (o : outcome) : result (option string) :=
  match o with
  | Fails e => Raise e
  | Responds text => Ok text
  end.

(** [if response.text:] gives the text when it is a non-empty string. *)
Definition usable (text : option string) : option string :=
  match text with
  | Some s => if String.eqb s "" then None else Some s
  | None => None
  end.

(** The text of a call that can be used: the call returned, and its text is
    a non-empty string. *)
Definition answer (o : outcome) : option string :=
  match o with
  | Fails _ => None
  | Responds text => usable text
  end.

(** Only a dict has the method [get]. *)
Definition as_dict (v : json) : result dict :=
  match v with
  | JObj d => Ok d
  | _ => Raise (no_attribute v "get")
  end.

Fixpoint as_dicts (l : list json) : result (list dict) :=
  match l with
  | [] => Ok []
  | v :: l' =>
      (let* d := as_dict v in
       let* ds := as_dicts l' in
       Ok (d :: ds))%res
  end.

(** [SimilaritySearch.find_similar_agent] on arguments of any type, as
    [_find_or_create_agent] calls it. A falsy [agents] returns [None]; then
    the first turn of the loop needs a dict ([agent.get]) and a string
    ([text.lower()]), the later turns need dicts. *)
Definition find_similar_agent_any (similarity_threshold : R)
    (query_description agents : json) : result (option dict) :=
  if negb (truthy agents) then Ok None
  else
    (let* items := iterate agents in
     match items with
     | [] => Ok None
     | first :: _ =>
         let* _ := as_dict first in
         match query_description with
         | JStr query =>
             let* records := as_dicts items in
             Ok (find_similar_agent similarity_threshold query records)
         | v => Raise (no_attribute v "lower")
         end
     end)%res.

Definition fallback_analysis : dict :=
  [ ("task_type", JStr "general");
    ("agent_description", JStr "General purpose assistant");
    ("complexity", JStr "simple");
    ("requires_delegation", JBool false) ].

(** The agent [_create_new_agent] makes up when the Creator gives nothing. *)
Definition fallback_agent (task_analysis : dict) : dict :=
  [ ("name", JStr (py_str (get_or "task_type" (JStr "General") task_analysis) ++ "Agent"));
    ("description",
       get_or "agent_description" (JStr "General purpose assistant") task_analysis);
    ("system_prompt",
       JStr ("You are a helpful assistant specializing in " ++
             py_str (get_or "task_type" (JStr "general tasks") task_analysis) ++ "."));
    ("task_type", get_or "task_type" (JStr "general") task_analysis);
    ("created_by", JStr "MasterAgent") ].

Section Orchestrator.

(** [json.loads]: [None] when it raises [JSONDecodeError]. *)
Variable json_loads : string -> option json.

Variable llm : capabilities.

Definition loads (text : string) : result json :=
  match json_loads text with
  | Some v => Ok v
  | None => Raise (Exn JSONDecodeError "Expecting value")
  end.

(** [MasterAgent._analyze_task] *)
Definition _analyze_task (user_prompt : string) : result json :=
  try_except
    (let* text := generate_content (analyzer llm user_prompt) in
     match usable text with
     | Some text => let* analysis := loads text in Ok analysis
     | None => Raise (Exn ValueError "Empty response from analysis")
     end)%res
    (fun _ => Ok (JObj fallback_analysis)).

(** [MasterAgent._create_new_agent]; its caller has used [task_analysis.get]
    before, so that [task_analysis] is a dict. *)
Definition _create_new_agent (task_analysis : dict) : result dict :=
  try_except
    (let* text := generate_content (creator llm task_analysis) in
     match usable text with
     | Some text =>
         let* agent_data := loads text in
         let* agent_data := set_item "created_by" (JStr "MasterAgent") agent_data in
         Ok agent_data
     | None => Raise (Exn ValueError "Empty response from agent creation")
     end)%res
    (fun _ => Ok (fallback_agent task_analysis)).

(** [MasterAgent._delegate_task] *)
Definition _delegate_task (agent : dict) (user_prompt : string) : result string :=
  try_except
    (let* text := generate_content (responder llm (Some agent) user_prompt) in
     match usable text with
     | Some text => Ok text
     | None => Ok "The specialized agent was unable to provide a response."
     end)%res
    (fun e => Ok ("Error occurred while delegating to " ++
                  py_str (get "name" agent) ++ ": " ++ message e)).

(** [MasterAgent._handle_directly] *)
Definition _handle_directly (user_prompt : string) : result string :=
  try_except
    (let* text := generate_content (responder llm None user_prompt) in
     match usable text with
     | Some text => Ok text
     | None => Ok "I'm unable to process your request at the moment."
     end)%res
    (fun e => Ok ("I encountered an error: " ++ message e)).

(** The creation branch of [_find_or_create_agent]: the outcome and the
    storage file it leaves. *)
Definition create_and_save (task_analysis : dict) (f : file)
    : result (option dict) * file :=
  match _create_new_agent task_analysis with
  | Raise e => (Raise e, f)
  | Ok new_agent =>
      if nonempty new_agent then
        let '(_, f') := save_agent new_agent f in
        ((let* _ := get_item "name" (JObj new_agent) in Ok (Some new_agent))%res, f')
      else (Ok (Some new_agent), f)
  end.

(** [MasterAgent._find_or_create_agent]: the outcome and the storage file it
    leaves. The matcher has the default threshold. *)
Definition _find_or_create_agent (task_analysis : json) (f : file)
    : result (option dict) * file :=
  match as_dict task_analysis with
  | Raise e => (Raise e, f)
  | Ok analysis =>
      if negb (truthy (get_or "requires_delegation" (JBool false) analysis))
      then (Ok None, f)
      else
        let agent_description := get_or "agent_description" (JStr "") analysis in
        match find_similar_agent_any default_threshold agent_description
                (list_agents f) with
        | Raise e => (Raise e, f)
        | Ok (Some existing_agent) =>
            if nonempty existing_agent then
              ((let* _ := get_item "name" (JObj existing_agent) in
                Ok (Some existing_agent))%res, f)
            else create_and_save analysis f
        | Ok None => create_and_save analysis f
        end
  end.

(** The body of the [try] of [process_request]. *)
Definition handle_request (request : string) (f : file) : result string * file :=
  match _analyze_task request with
  | Raise e => (Raise e, f)
  | Ok task_analysis =>
      let '(found, f') := _find_or_create_agent task_analysis f in
      ((let* agent := found in
        match agent with
        | Some agent =>
            if nonempty agent then
              let* _ := get_item "name" (JObj agent) in
              _delegate_task agent request
            else _handle_directly request
        | None => _handle_directly request
        end)%res, f')
  end.

(** [MasterAgent.process_request]: the outcome and the storage file it
    leaves. *)
Definition process_request (request : string) (f : file) : result string * file :=
  let '(response, f') := handle_request request f in
  (try_except response
     (fun e => Ok ("I encountered an error while processing your request: "
                   ++ message e)),
   f').

End Orchestrator.

End MasterAgent.


(** ** utils.py *)

Module Utils.
Import Text Py.

(** [text[:stop]]: a negative [stop] counts from the end, and the slice ends
    where the text ends. *)
Definition slice_to (text : string) (stop : Z) : string :=
  let n := Z.of_nat (String.length text) in
  let stop := if (stop <? 0)%Z then Z.max (n + stop) 0 else stop in
  String.substring 0 (Z.to_nat stop) text.

(** [truncate_text] *)
Definition truncate_text (text : string) (max_length : Z) : string :=
  if (Z.of_nat (String.length text) <=? max_length)%Z then text
  else slice_to text (max_length - 3) ++ "...".

(** The class [[a-zA-Z0-9_]]. *)
Definition name_char (c : ascii) : bool :=
  is_lower_az c || is_upper_AZ c || is_digit c || Ascii.eqb c "_".

(** [re.sub(r'[^...]', '', name)] for a one-character class [keep]. *)
Fixpoint remove_outside (keep : ascii -> bool) (s : string) : string :=
  match s with
  | EmptyString => EmptyString
  | String c s' =>
      if keep c then String c (remove_outside keep s') else remove_outside keep s'
  end.

(** [str.isalpha] on one character: the letters of U+0000..U+00FF. *)
Definition is_alpha (c : ascii) : bool :=
  is_lower_az c || is_upper_AZ c ||
  (code c =? 170)%N || (code c =? 181)%N || (code c =? 186)%N ||
  (in_range 192 255 c && negb (code c =? 215)%N && negb (code c =? 247)%N).

(** [s[0].isalpha()] where [s] is not empty. *)
Definition starts_alpha (s : string) : bool :=
  match s with
  | EmptyString => false
  | String c _ => is_alpha c
  end.

(** [sanitize_agent_name] *)
Definition sanitize_agent_name (name : string) : string :=
  let sanitized := remove_outside name_char name in
  let sanitized :=
    if negb (String.eqb sanitized "") && negb (starts_alpha sanitized)
    then "Agent" ++ sanitized else sanitized in
  let sanitized :=
    if (String.length sanitized <? 3)%nat then "Agent" ++ sanitized else sanitized in
  if String.eqb sanitized "" then "DefaultAgent" else sanitized.

End Utils.

(** ** base_agent.py *)

Module BaseAgent.
Import Py.

(** The attributes of a [SpecializedAgent]. *)
Record SpecializedAgent : Type := Agent {
  name : json;
  description : json;
  created_at : json;
  last_used : json;
  system_prompt : json;
  task_type : json
}.

(** [d.update(other)] *)
Definition update (d other : dict) : dict :=
  fold_left (fun d kv => set_key (fst kv) (snd kv) d) other d.

(** [BaseAgent.to_dict] on a [SpecializedAgent]. *)
Definition base_to_dict (self : SpecializedAgent) : dict :=
  [ ("name", name self);
    ("description", description self);
    ("created_at", created_at self);
    ("last_used", last_used self);
    ("type", JStr "SpecializedAgent") ].

(** [SpecializedAgent.to_dict] *)
Definition to_dict (self : SpecializedAgent) : dict :=
  update (base_to_dict self)
    [ ("system_prompt", system_prompt self); ("task_type", task_type self) ].

(** [SpecializedAgent.from_dict] *)
Definition from_dict (agent_dict : dict) : SpecializedAgent :=
  {| name := get_or "name" (JStr "UnknownAgent") agent_dict;
     description := get_or "description" (JStr "") agent_dict;
     system_prompt := get_or "system_prompt" (JStr "") agent_dict;
     task_type := get_or "task_type" (JStr "general") agent_dict;
     created_at := get "created_at" agent_dict;
     last_used := get "last_used" agent_dict |}.

(** The keys that [from_dict] reads. *)
Definition agent_keys : list string :=
  ["name"; "description"; "created_at"; "last_used"; "system_prompt"; "task_type"].

End BaseAgent.
(** ** Sample data *)

Module Samples.
Import Py.

(** The registry of the first scenario of the specification. *)
Definition math_agent : dict :=
  [ ("name", JStr "MathAgent");
    ("description", JStr "solves algebra and equations");
    ("task_type", JStr "math") ].

Definition math_query : string := "algebra equation solver".

(** A second record whose text differs from [math_agent] in letter case only. *)
Definition math_agent_again : dict :=
  [ ("name", JStr "mathagent");
    ("description", JStr "Solves algebra and equations");
    ("task_type", JStr "math") ].

(** A record and a query with ten tokens each and one token in common. *)
Definition story_agent : dict :=
  [ ("name", JStr "StoryAgent");
    ("description", JStr "crafting vivid fantasy novels about dragons using python");
    ("system_prompt", JStr "You write fantasy stories.");
    ("task_type", JStr "creative");
    ("created_by", JStr "MasterAgent") ].

Definition story_query : string :=
  "expert python developer writing clean tested backend services with documentation".

(** A store with two records. *)
Definition sample_records : list dict := [story_agent; math_agent].

Definition sample_store : dict :=
  [("agents", JArr (List.map JObj sample_records))].

(** A new version of the record named ["MathAgent"]. *)
Definition math_agent_update : dict :=
  [ ("name", JStr "MathAgent"); ("description", JStr "proves theorems") ].

(** A record without a task type, and a record whose task type is empty. *)
Definition untyped_agent : dict := [ ("name", JStr "Untyped") ].

Definition blank_agent : dict := [ ("name", JStr "Blank"); ("task_type", JStr "") ].

Definition typed_and_untyped_store : dict :=
  [("agents", JArr (List.map JObj [story_agent; math_agent; untyped_agent]))].

Definition blank_store : dict := [("agents", JArr [JObj blank_agent])].

(** A record whose task type is a list. *)
Definition listed_agent : dict :=
  [ ("name", JStr "Listed"); ("task_type", JArr [JStr "math"; JStr "code"]) ].

(** The task analysis of the last scenario of the specification. *)
Definition math_analysis : dict :=
  [ ("task_type", JStr "math");
    ("agent_description", JStr "arithmetic helper");
    ("requires_delegation", JBool true) ].

(** A record and a query made of short words only. *)
Definition bug_agent : dict := [ ("description", JStr "fix bug") ].

Definition errand_query : string := "do it now".

(** A record whose task type is [null]. *)
Definition null_type_agent : dict := [ ("name", JStr "Draft"); ("task_type", JNull) ].

Definition draft_store : dict :=
  [("agents", JArr [JObj math_agent; JObj null_type_agent])].

(** A task analysis that describes the agent wanted by [math_query]. *)
Definition algebra_analysis : dict :=
  [ ("task_type", JStr "math");
    ("agent_description", JStr math_query);
    ("requires_delegation", JBool true) ].

(** What a Creator gives that forgets the name. *)
Definition nameless_agent : dict := [ ("description", JStr "arithmetic helper") ].

End Samples.


(** * Properties *)

(** ** The text normaliser *)

Module TextFacts.
Import Text TextShape SimilaritySearch.

Ltac by_cases_on_char c :=
  destruct c as [[] [] [] [] [] [] [] []]; vm_compute; try reflexivity;
  try discriminate; intuition congruence.

Lemma lowered_class c :
  class_source (lower_char c) = class_spec (lower_char c).
Proof. by_cases_on_char c. Qed.

Lemma replaced_char c :
  let c' := if class_source (lower_char c) then lower_char c else " "%char in
  is_space c' || word_char c' = true.
Proof. by_cases_on_char c. Qed.

Lemma word_char_fixed c :
  word_char c = true ->
  lower_char c = c /\ class_source c = true /\ is_space c = false /\
  is_blank c = false.
Proof. by_cases_on_char c. Qed.

Lemma blank_is c : is_blank c = true -> c = " "%char.
Proof. unfold is_blank. intros H. now apply Ascii.eqb_eq in H. Qed.

Lemma spec_agrees text : normalize_spec text = _normalize_text text.
Proof.
  unfold normalize_spec, _normalize_text. do 2 f_equal.
  induction text as [|c s IH]; simpl; [reflexivity|].
  now rewrite IH, lowered_class.
Qed.

(** *** Each stage establishes its part of the normal form *)

Lemma replaced_all s :
  all_chars (fun c => is_space c || word_char c)
            (sub_outside class_source (lower s)) = true.
Proof.
  induction s as [|c s IH]; simpl; [reflexivity|].
  rewrite IH, andb_true_r. apply replaced_char.
Qed.

Lemma squeeze_tidy s : forall b,
  all_chars (fun c => is_space c || word_char c) s = true ->
  tidy b (squeeze b s) = true.
Proof.
  induction s as [|c s IH]; intros b H; simpl in *; [reflexivity|].
  apply andb_prop in H as [Hc Hs].
  destruct (is_space c) eqn:Esp.
  - destruct b; [now apply IH|]. simpl. now apply IH.
  - simpl in Hc. destruct (word_char_fixed c Hc) as (_ & _ & _ & Hb). simpl.
    rewrite Hb, Hc. simpl. now apply IH.
Qed.

Lemma tidy_space_is_blank b c s :
  tidy b (String c s) = true -> is_space c = true -> is_blank c = true.
Proof.
  simpl. destruct (is_blank c) eqn:Eb; [reflexivity|]. intros H Hs.
  apply andb_prop in H as [Hw _].
  apply word_char_fixed in Hw. destruct Hw as (_ & _ & Hn & _). congruence.
Qed.

Lemma lstrip_tidy s : forall b, tidy b s = true -> tidy true (lstrip s) = true.
Proof.
  induction s as [|c s IH]; intros b H; [reflexivity|].
  simpl lstrip. destruct (is_space c) eqn:Esp.
  - pose proof (tidy_space_is_blank _ _ _ H Esp) as Hb.
    simpl in H. rewrite Hb in H. apply andb_prop in H as [_ H]. now apply (IH true).
  - simpl in *. destruct (is_blank c) eqn:Eb; [|exact H].
    apply blank_is in Eb. subst c. discriminate.
Qed.

Lemma rstrip_tidy s : forall b, tidy b s = true -> tidy b (rstrip s) = true.
Proof.
  induction s as [|c s IH]; intros b H; [reflexivity|].
  simpl rstrip. simpl in H.
  destruct (is_blank c) eqn:Eb.
  - apply andb_prop in H as [Hp H]. specialize (IH true H).
    destruct (rstrip s) as [|c' r] eqn:Er.
    + apply blank_is in Eb. subst c. reflexivity.
    + simpl. rewrite Eb, Hp. exact IH.
  - apply andb_prop in H as [Hw H]. specialize (IH false H).
    destruct (rstrip s) as [|c' r] eqn:Er.
    + destruct (is_space c); simpl; [reflexivity|]. now rewrite Eb, Hw.
    + simpl. rewrite Eb, Hw. exact IH.
Qed.

Lemma rstrip_no_trailing s : no_trailing_space (rstrip s) = true.
Proof.
  induction s as [|c s IH]; [reflexivity|]. simpl rstrip.
  destruct (rstrip s) as [|c' r] eqn:Er.
  - destruct (is_space c) eqn:Esp; simpl; [reflexivity|]. now rewrite Esp.
  - exact IH.
Qed.

Lemma normalize_normal text : normal (_normalize_text text).
Proof.
  unfold _normalize_text, strip, collapse_spaces. split.
  - apply rstrip_tidy. eapply lstrip_tidy. apply squeeze_tidy, replaced_all.
  - apply rstrip_no_trailing.
Qed.

(** *** Each stage leaves a normal text unchanged *)

Lemma tidy_lower s : forall b, tidy b s = true -> lower s = s.
Proof.
  induction s as [|c s IH]; intros b H; simpl in *; [reflexivity|].
  destruct (is_blank c) eqn:Eb.
  - apply andb_prop in H as [_ H]. apply blank_is in Eb. subst c.
    now rewrite (IH true H).
  - apply andb_prop in H as [Hw H]. apply word_char_fixed in Hw.
    destruct Hw as (-> & _). now rewrite (IH false H).
Qed.

Lemma tidy_sub s : forall b, tidy b s = true -> sub_outside class_source s = s.
Proof.
  induction s as [|c s IH]; intros b H; simpl in *; [reflexivity|].
  destruct (is_blank c) eqn:Eb.
  - apply andb_prop in H as [_ H]. apply blank_is in Eb. subst c.
    now rewrite (IH true H).
  - apply andb_prop in H as [Hw H]. apply word_char_fixed in Hw.
    destruct Hw as (_ & -> & _). now rewrite (IH false H).
Qed.

Lemma tidy_squeeze s : forall b b',
  tidy b s = true -> (b' = true -> b = true) -> squeeze b' s = s.
Proof.
  induction s as [|c s IH]; intros b b' H Hb; simpl in *; [reflexivity|].
  destruct (is_blank c) eqn:Eb.
  - apply andb_prop in H as [Hp H]. apply blank_is in Eb. subst c. simpl.
    destruct b'.
    + rewrite Hb in Hp by reflexivity. discriminate.
    + f_equal. now apply (IH true).
  - apply andb_prop in H as [Hw H]. apply word_char_fixed in Hw.
    destruct Hw as (_ & _ & -> & _). f_equal. apply (IH false); [exact H|].
    discriminate.
Qed.

Lemma tidy_lstrip s : tidy true s = true -> lstrip s = s.
Proof.
  destruct s as [|c s]; simpl; [reflexivity|].
  destruct (is_blank c) eqn:Eb; [discriminate|]. intros H.
  apply andb_prop in H as [Hw _]. apply word_char_fixed in Hw.
  now destruct Hw as (_ & _ & -> & _).
Qed.

Lemma no_trailing_rstrip s : no_trailing_space s = true -> rstrip s = s.
Proof.
  induction s as [|c s IH]; [reflexivity|]. intros H. simpl rstrip.
  destruct s as [|c' s'].
  - simpl in *. now destruct (is_space c).
  - rewrite IH by exact H. reflexivity.
Qed.

Lemma normal_fixed s : normal s -> _normalize_text s = s.
Proof.
  intros [Ht Hn]. unfold _normalize_text, strip, collapse_spaces.
  rewrite (tidy_lower _ _ Ht), (tidy_sub _ _ Ht).
  rewrite (tidy_squeeze s true false Ht) by discriminate.
  rewrite (tidy_lstrip _ Ht). now apply no_trailing_rstrip.
Qed.

(** C9. [_normalize_text] is idempotent, it maps ["Hello, World!"] and
    ["hello world"] to the same text, and it is the function the
    specification describes: lower-case, replace every character outside
    [[a-z0-9\s]] by a space, collapse white-space runs, trim. *)
Theorem normalize_idempotent :
  (forall x, _normalize_text (_normalize_text x) = _normalize_text x) /\
  _normalize_text "Hello, World!" = _normalize_text "hello world" /\
  (forall x, _normalize_text x = normalize_spec x).
Proof.
  split; [|split].
  - intros x. apply normal_fixed, normalize_normal.
  - reflexivity.
  - intros x. symmetry. apply spec_agrees.
Qed.

End TextFacts.

(** ** The scorer *)

Module ScorerFacts.
Import Text Py SimilaritySearch.

Local Open Scope R_scope.

(** *** Vectors of counts *)

Lemma dot_self_zero v : dot v v = 0%nat <-> Forall (fun n => n = 0%nat) v.
Proof.
  induction v as [|n v IH]; simpl.
  - split; [constructor|reflexivity].
  - split.
    + intros H. constructor; [nia|]. apply IH. nia.
    + intros H. inversion H as [|? ? -> Hv]. apply IH in Hv. lia.
Qed.

Lemma norm_zero v : norm v = 0 <-> dot v v = 0%nat.
Proof.
  unfold norm. split.
  - intros H. apply sqrt_eq_0 in H; [|apply pos_INR]. now apply INR_eq.
  - intros ->. apply sqrt_0.
Qed.

Lemma count_zero word ws : count word ws = 0%nat <-> word ∉ ws.
Proof.
  unfold count. induction ws as [|w ws IH]; simpl.
  - split; [intros _; apply not_elem_of_nil|reflexivity].
  - rewrite not_elem_of_cons. destruct (String.eqb_spec word w) as [->|Hne]; simpl.
    + split; [discriminate|]. intros [Hw _]. now contradiction Hw.
    + rewrite IH. tauto.
Qed.

Lemma elem_of_vocabulary word words1 words2 :
  word ∈ vocabulary words1 words2 <-> word ∈ words1 \/ word ∈ words2.
Proof.
  unfold vocabulary. rewrite elem_of_elements, elem_of_list_to_set.
  apply elem_of_app.
Qed.

Lemma vocabulary_nil words1 words2 :
  vocabulary words1 words2 = [] <-> words1 = [] /\ words2 = [].
Proof.
  split.
  - intros H. destruct words1 as [|w ws].
    + destruct words2 as [|w ws]; [easy|].
      assert (w ∈ vocabulary [] (w :: ws)) as Hw
        by (apply elem_of_vocabulary; right; left).
      rewrite H in Hw. now apply not_elem_of_nil in Hw.
    + assert (w ∈ vocabulary (w :: ws) words2) as Hw
        by (apply elem_of_vocabulary; left; left).
      rewrite H in Hw. now apply not_elem_of_nil in Hw.
  - intros [-> ->]. reflexivity.
Qed.

Lemma frequencies_zero ws vocab :
  Forall (fun n => n = 0%nat) (frequencies ws vocab) <->
  forall word, word ∈ vocab -> word ∉ ws.
Proof.
  unfold frequencies. rewrite List.Forall_map, List.Forall_forall. split.
  - intros H word Hw. apply count_zero, H. now apply list_elem_of_In.
  - intros H word Hw. apply count_zero, H. now apply list_elem_of_In.
Qed.

(** A count vector over the common vocabulary has norm zero exactly when its
    text has no token. *)
Lemma norm_frequencies_left words1 words2 :
  norm (frequencies words1 (vocabulary words1 words2)) = 0 <-> words1 = [].
Proof.
  rewrite norm_zero, dot_self_zero, frequencies_zero. split.
  - intros H. destruct words1 as [|w ws]; [reflexivity|].
    exfalso. apply (H w); [apply elem_of_vocabulary; left|]; left.
  - intros -> word _. apply not_elem_of_nil.
Qed.

Lemma norm_frequencies_right words1 words2 :
  norm (frequencies words2 (vocabulary words1 words2)) = 0 <-> words2 = [].
Proof.
  rewrite norm_zero, dot_self_zero, frequencies_zero. split.
  - intros H. destruct words2 as [|w ws]; [reflexivity|].
    exfalso. apply (H w); [apply elem_of_vocabulary; right|]; left.
  - intros -> word _. apply not_elem_of_nil.
Qed.

(** *** The three metrics from their counts *)

Lemma cosine_unfold text1 text2 :
  let vocab := vocabulary (words text1) (words text2) in
  let vec1 := frequencies (words text1) vocab in
  let vec2 := frequencies (words text2) vocab in
  _cosine_similarity_simple text1 text2 =
    match words text1, words text2 with
    | [], [] => 1
    | [], _ | _, [] => 0
    | _, _ => INR (dot vec1 vec2) / (norm vec1 * norm vec2)
    end.
Proof.
  intros vocab vec1 vec2. unfold _cosine_similarity_simple.
  fold vocab. fold vec1. fold vec2.
  pose proof (vocabulary_nil (words text1) (words text2)) as Hnil.
  pose proof (norm_frequencies_left (words text1) (words text2)) as H1.
  pose proof (norm_frequencies_right (words text1) (words text2)) as H2.
  fold vocab in Hnil, H1, H2. fold vec1 in H1. fold vec2 in H2.
  destruct vocab as [|v vs] eqn:Ev.
  - destruct Hnil as [Hnil _]. destruct (Hnil eq_refl) as [-> ->]. reflexivity.
  - destruct (Req_dec_T (norm vec1) 0) as [Hz1|Hn1].
    + apply H1 in Hz1. rewrite Hz1.
      destruct (words text2) as [|w2 ws2] eqn:E2; [|reflexivity].
      destruct Hnil as [_ Hnil]. rewrite Hz1 in Hnil. now specialize (Hnil (conj eq_refl eq_refl)).
    + destruct (Req_dec_T (norm vec2) 0) as [Hz2|Hn2].
      * apply H2 in Hz2. rewrite Hz2.
        destruct (words text1) as [|w1 ws1] eqn:E1; [|reflexivity].
        now contradiction Hn1; apply H1.
      * destruct (words text1) as [|w1 ws1] eqn:E1; [now contradiction Hn1; apply H1|].
        destruct (words text2) as [|w2 ws2] eqn:E2; [now contradiction Hn2; apply H2|].
        reflexivity.
Qed.

Lemma jaccard_eval text1 text2 e1 e2 i u :
  is_empty (tokens text1) = e1 -> is_empty (tokens text2) = e2 ->
  size (tokens text1 ∩ tokens text2) = i ->
  size (tokens text1 ∪ tokens text2) = u ->
  _jaccard_similarity text1 text2 =
    if e1 && e2 then 1 else if e1 || e2 then 0
    else if (0 <? u)%nat then INR i / INR u else 0.
Proof. intros <- <- <- <-. reflexivity. Qed.

Lemma keyword_eval text1 text2 e1 e2 i m :
  is_empty (keywords text1) = e1 -> is_empty (keywords text2) = e2 ->
  size (keywords text1 ∩ keywords text2) = i ->
  Nat.max (size (keywords text1)) (size (keywords text2)) = m ->
  _keyword_overlap_similarity text1 text2 =
    if e1 && e2 then 1 else if e1 || e2 then 0
    else if (0 <? m)%nat then INR i / INR m else 0.
Proof. intros <- <- <- <-. reflexivity. Qed.

Lemma cosine_eval text1 text2 d n1 n2 :
  let vocab := vocabulary (words text1) (words text2) in
  let vec1 := frequencies (words text1) vocab in
  let vec2 := frequencies (words text2) vocab in
  dot vec1 vec2 = d -> dot vec1 vec1 = n1 -> dot vec2 vec2 = n2 ->
  words text1 <> [] -> words text2 <> [] ->
  _cosine_similarity_simple text1 text2 = INR d / (sqrt (INR n1) * sqrt (INR n2)).
Proof.
  intros vocab vec1 vec2 <- <- <- H1 H2. rewrite cosine_unfold.
  destruct (words text1); [contradiction|]. destruct (words text2); [contradiction|].
  reflexivity.
Qed.

(** Evaluates [_calculate_similarity] on closed texts whose token lists are
    not empty: the counts by computation, the arithmetic left in [R]. *)
Ltac eval_score :=
  unfold _calculate_similarity, weighted_sum;
  erewrite jaccard_eval; [|vm_compute; reflexivity ..];
  erewrite keyword_eval; [|vm_compute; reflexivity ..];
  erewrite cosine_eval; [|try (vm_compute; reflexivity); vm_compute; discriminate ..];
  cbn [andb orb Nat.ltb Nat.leb];
  rewrite ?INR_IZR_INZ;
  repeat match goal with
         | |- context [Z.of_nat ?n] =>
             let z := eval vm_compute in (Z.of_nat n) in
             change (Z.of_nat n) with z
         end.


(** C8, as the code has it. The cosine score counts each token of the two
    normalised texts over their common vocabulary and divides the dot product
    of the two count vectors by the product of their Euclidean norms. A count
    vector has norm zero exactly when its text has no token. When both texts
    have no token the score is 1.0; when exactly one has none it is 0.0. *)
Theorem cosine_similarity_cases text1 text2 :
  let vocab := vocabulary (words text1) (words text2) in
  let vec1 := frequencies (words text1) vocab in
  let vec2 := frequencies (words text2) vocab in
  (forall word, word ∈ vocab <-> word ∈ words text1 \/ word ∈ words text2) /\
  NoDup vocab /\
  (norm vec1 = 0 <-> words text1 = []) /\
  (norm vec2 = 0 <-> words text2 = []) /\
  _cosine_similarity_simple text1 text2 =
    match words text1, words text2 with
    | [], [] => 1
    | [], _ | _, [] => 0
    | _, _ => INR (dot vec1 vec2) / (norm vec1 * norm vec2)
    end.
Proof.
  intros vocab vec1 vec2. split; [|split; [|split; [|split]]].
  - intros word. apply elem_of_vocabulary.
  - apply NoDup_elements.
  - apply norm_frequencies_left.
  - apply norm_frequencies_right.
  - apply cosine_unfold.
Qed.

(** C8, as stated, fails: for two texts without any token both count vectors
    have norm zero, and the score is 1.0, not 0.0. *)
Lemma cosine_of_empty_texts_is_one :
  let vocab := vocabulary (words "?!") (words "...") in
  norm (frequencies (words "?!") vocab) = 0 /\
  norm (frequencies (words "...") vocab) = 0 /\
  _cosine_similarity_simple "?!" "..." = 1 /\
  _cosine_similarity_simple "?!" "..." <> 0.
Proof.
  assert (_cosine_similarity_simple "?!" "..." = 1) as H
    by (rewrite cosine_unfold; reflexivity).
  split; [now apply norm_frequencies_left|].
  split; [now apply norm_frequencies_right|].
  split; [exact H|]. rewrite H. lra.
Qed.

End ScorerFacts.

(** ** The matcher *)

Module MatcherFacts.
Import Py SimilaritySearch Samples ScorerFacts.

Local Open Scope R_scope.

Section Scan.
Variable score_of : dict -> R.

(** The loop invariant of the scan, from any starting pair. *)
Lemma fold_scan agents : forall best0 s0 best s,
  fold_left (scan_step score_of) agents (best0, s0) = (best, s) ->
  (best = best0 /\ s = s0 /\
   forall j b, agents !! j = Some b -> score_of b <= s0) \/
  (exists i a, best = Some a /\ s = score_of a /\ s0 < s /\
               earliest_best score_of agents i a).
Proof.
  induction agents as [|x l IH]; intros best0 s0 best s H; simpl in H.
  - left. injection H as <- <-. repeat split. intros j b Hj. discriminate.
  - unfold scan_step at 2 in H. simpl in H.
    destruct (Rgt_dec (score_of x) s0) as [Hgt|Hle].
    + right. apply IH in H as [(-> & -> & Hall)|(i & a & -> & -> & Hlt & Hi & Hmax & Hfirst)].
      * exists 0%nat, x. repeat split; try assumption.
        -- intros [|j] b Hj; simpl in Hj; [injection Hj as <-; lra|eauto].
        -- intros j b Hj. lia.
      * exists (S i), a. repeat split; try assumption; try lra.
        -- intros [|j] b Hj; simpl in Hj; [injection Hj as <-; lra|eauto].
        -- intros [|j] b Hlt' Hj; simpl in Hj.
           ++ injection Hj as <-. lra.
           ++ apply (Hfirst j); [lia|assumption].
    + apply IH in H as [(-> & -> & Hall)|(i & a & -> & -> & Hlt & Hi & Hmax & Hfirst)].
      * left. repeat split.
        intros [|j] b Hj; simpl in Hj; [injection Hj as <-; lra|eauto].
      * right. exists (S i), a. repeat split; try assumption.
        -- intros [|j] b Hj; simpl in Hj; [injection Hj as <-; lra|eauto].
        -- intros [|j] b Hlt' Hj; simpl in Hj.
           ++ injection Hj as <-. lra.
           ++ apply (Hfirst j); [lia|assumption].
Qed.

Lemma scan_cases agents :
  (scan score_of agents = (None, 0.09) /\
   forall j b, agents !! j = Some b -> score_of b <= 0.09) \/
  (exists i a, scan score_of agents = (Some a, score_of a) /\
               0.09 < score_of a /\ earliest_best score_of agents i a).
Proof.
  unfold scan. destruct (fold_left _ _ _) as [best s] eqn:E.
  apply fold_scan in E as [(-> & -> & Hall)|(i & a & -> & -> & Hlt & Hbest)].
  - left. split; [reflexivity|assumption].
  - right. exists i, a. repeat split; try assumption; apply Hbest.
Qed.

Lemma earliest_best_unique agents i a i' a' :
  earliest_best score_of agents i a -> earliest_best score_of agents i' a' ->
  i = i' /\ a = a'.
Proof.
  intros (Hi & Hmax & Hfirst) (Hi' & Hmax' & Hfirst').
  assert (i = i') as <-.
  { destruct (Nat.lt_trichotomy i i') as [Hlt|[Heq|Hlt]]; [|assumption|].
    - pose proof (Hfirst' _ _ Hlt Hi). pose proof (Hmax _ _ Hi'). lra.
    - pose proof (Hfirst _ _ Hlt Hi'). pose proof (Hmax' _ _ Hi). lra. }
  split; [reflexivity|congruence].
Qed.

End Scan.

(** What [find_similar_agent] returns, in full: a record is returned exactly
    when it is the earliest record with the greatest score, that score is
    above the constant 0.09 and reaches the threshold, and the record is not
    the empty dict. *)
Lemma find_similar_agent_spec threshold query agents a :
  find_similar_agent threshold query agents = Some a <->
  exists i,
    earliest_best (_calculate_similarity query) agents i a /\
    0.09 < _calculate_similarity query a /\
    _calculate_similarity query a >= threshold /\
    nonempty a = true.
Proof.
  unfold find_similar_agent.
  destruct (scan_cases (_calculate_similarity query) agents)
    as [[E Hall]|(i & b & E & Hgt & Hbest)].
  - split.
    + destruct agents; [discriminate|]. rewrite E.
      destruct (Rge_dec _ _); discriminate.
    + intros (i & (Hi & _) & Hgt & _). pose proof (Hall _ _ Hi). lra.
  - split.
    + destruct agents as [|x l]; [discriminate|]. rewrite E.
      destruct (Rge_dec _ _) as [Hge|]; [|discriminate].
      destruct (nonempty b) eqn:Hne; [|discriminate].
      intros [= <-]. exists i. auto.
    + intros (i' & Hbest' & _ & Hge & Hne).
      destruct (earliest_best_unique _ _ _ _ _ _ Hbest Hbest') as [<- <-].
      destruct agents as [|x l]; [destruct Hbest as [Hi _]; discriminate|].
      rewrite E. destruct (Rge_dec _ _); [|contradiction]. now rewrite Hne.
Qed.

(** The test [and best_agent] drops a record that is the empty dict. *)
Lemma empty_record_never_returned threshold query :
  find_similar_agent threshold query [[]] = None.
Proof.
  destruct (find_similar_agent threshold query [[]]) as [a|] eqn:E; [|reflexivity].
  apply find_similar_agent_spec in E as (i & (Hi & _) & _ & _ & Hne).
  destruct i as [|i]; simpl in Hi; [|discriminate]. injection Hi as <-. discriminate.
Qed.

(** C10. Whatever the threshold, a record returned by [find_similar_agent]
    is one of the candidates and scores strictly more than the constant
    0.09 the running best starts from; a candidate scoring 0.09 or less is
    never returned. *)
Theorem returned_agent_above_floor threshold query agents a :
  find_similar_agent threshold query agents = Some a ->
  a ∈ agents /\ _calculate_similarity query a > 0.09.
Proof.
  intros H. apply find_similar_agent_spec in H as (i & (Hi & _) & Hgt & _).
  split; [|lra]. apply list_elem_of_lookup. eauto.
Qed.


(** *** The sample records *)

Lemma math_score :
  _calculate_similarity math_query math_agent =
    Rmin (1 / 8 * 0.4 + (1 / 5 * 0.3 + (1 / (sqrt 3 * sqrt 6) * 0.3 + 0))) 1.
Proof. eval_score. f_equal; lra. Qed.

Lemma math_score_again :
  _calculate_similarity math_query math_agent_again =
    _calculate_similarity math_query math_agent.
Proof. rewrite math_score. eval_score. f_equal; lra. Qed.

Lemma math_score_above_floor : 0.09 < _calculate_similarity math_query math_agent.
Proof.
  rewrite math_score. apply Rmin_glb_lt; [|lra].
  assert (0 < 1 / (sqrt 3 * sqrt 6)).
  { apply Rdiv_lt_0_compat; [lra|].
    apply Rmult_lt_0_compat; apply sqrt_lt_R0; lra. }
  lra.
Qed.

Lemma story_score :
  _calculate_similarity story_query story_agent = 0.4 / 19 + 0.06.
Proof.
  eval_score. rewrite sqrt_sqrt by lra.
  rewrite Rmin_left by lra. lra.
Qed.

Lemma math_agent_found :
  find_similar_agent default_threshold math_query [math_agent; math_agent_again]
  = Some math_agent.
Proof.
  apply find_similar_agent_spec. exists 0%nat.
  pose proof math_score_above_floor as Hgt. pose proof math_score_again as Heq.
  repeat split.
  - intros [|[|j]] b Hj; simpl in Hj; try discriminate; injection Hj as <-; lra.
  - intros j b Hj. lia.
  - exact Hgt.
  - unfold default_threshold. lra.
Qed.

(** C1 on a concrete input, with the threshold 0.05. The only record scores
    about 0.081: no record scores more, [get_similarity_scores] reports that
    it meets the threshold, and [find_similar_agent] returns none. *)
Theorem match_below_floor_is_dropped :
  _calculate_similarity story_query story_agent = 0.4 / 19 + 0.3 / 10 + 0.3 / 10 /\
  _calculate_similarity story_query story_agent >= 0.05 /\
  similarity_entry 0.05 story_query story_agent =
    (story_agent, _calculate_similarity story_query story_agent, true) /\
  find_similar_agent 0.05 story_query [story_agent] = None.
Proof.
  pose proof story_score as Hs.
  split; [lra|]. split; [lra|]. split.
  - unfold similarity_entry. destruct (Rge_dec _ _); [reflexivity|lra].
  - destruct (find_similar_agent 0.05 story_query [story_agent]) as [a|] eqn:E;
      [|reflexivity].
    apply find_similar_agent_spec in E as (i & (Hi & _) & Hgt & _).
    destruct i as [|i]; simpl in Hi; [|discriminate]. injection Hi as <-. lra.
Qed.

(** The second scenario of the specification: no token in common, score 0,
    no match. *)
Lemma poem_agent_not_matched :
  find_similar_agent default_threshold "optimize a SQL database index"
    [[("name", JStr "PoemAgent"); ("description", JStr "writes poems");
      ("task_type", JStr "creative")]] = None.
Proof.
  destruct (find_similar_agent _ _ _) as [a|] eqn:E; [|reflexivity].
  apply find_similar_agent_spec in E as (i & (Hi & _) & Hgt & _).
  destruct i as [|i]; simpl in Hi; [|discriminate]. injection Hi as <-.
  revert Hgt. eval_score. rewrite Rmin_left by lra. lra.
Qed.

(** A run of C10: the record found for the sample query scores above 0.09. *)
Lemma returned_agent_above_floor_witness :
  find_similar_agent default_threshold math_query [math_agent; math_agent_again]
    = Some math_agent /\
  (math_agent ∈ [math_agent; math_agent_again] /\
   _calculate_similarity math_query math_agent > 0.09).
Proof.
  split; [exact math_agent_found|].
  exact (returned_agent_above_floor default_threshold math_query
           [math_agent; math_agent_again] math_agent math_agent_found).
Defined.


End MatcherFacts.

(** ** The registry *)

Module StorageFacts.
Import Py AgentStorage Samples.

Lemma lookup_set_key k v d : lookup_key k (set_key k v d) = Some v.
Proof.
  induction d as [|[k' v'] d IH]; simpl.
  - now rewrite String.eqb_refl.
  - destruct (String.eqb k k') eqn:E; simpl; rewrite ?String.eqb_refl, ?E; auto.
Qed.

Lemma list_agents_parsed d :
  list_agents (Parsed (JObj d)) = get_or "agents" (JArr []) d.
Proof. reflexivity. Qed.

Lemma list_agents_holds d records :
  holds d records -> list_agents (Parsed (JObj d)) = JArr (List.map JObj records).
Proof. unfold holds. intros H. rewrite list_agents_parsed. unfold get_or. now rewrite H. Qed.

(** *** [save_agent] *)

Lemma first_index_some {A} (p : A -> bool) (l : list A) i :
  first_index p l = Some i <->
  exists x, l !! i = Some x /\ p x = true /\
            forall j y, j < i -> l !! j = Some y -> p y = false.
Proof.
  revert i. induction l as [|x l IH]; intros i; simpl.
  - split; [discriminate|]. intros (y & Hy & _). discriminate.
  - destruct (p x) eqn:Hx.
    + split.
      * intros [= <-]. exists x. repeat split; auto. intros j y Hj. lia.
      * intros (y & Hy & Hp & Hfirst). destruct i as [|i]; [reflexivity|].
        specialize (Hfirst 0 x (Nat.lt_0_succ _) eq_refl). congruence.
    + destruct (first_index p l) as [k|] eqn:Ek; simpl.
      * split.
        -- intros [= <-]. destruct (proj1 (IH k) eq_refl) as (y & Hy & Hp & Hfirst).
           exists y. repeat split; auto.
           intros [|j] z Hj Hz; simpl in Hz; [congruence|]. apply (Hfirst j); [lia|auto].
        -- intros (y & Hy & Hp & Hfirst). destruct i as [|i]; simpl in Hy; [congruence|].
           f_equal. assert (Some k = Some i) as [= ->]; [|reflexivity].
           apply IH. exists y. repeat split; auto.
           intros j z Hj Hz. apply (Hfirst (S j)); [lia|auto].
      * split; [discriminate|].
        intros (y & Hy & Hp & Hfirst). destruct i as [|i]; simpl in Hy; [congruence|].
        assert (None = Some i) as Habs; [|discriminate]. apply IH.
        exists y. repeat split; auto.
        intros j z Hj Hz. apply (Hfirst (S j)); [lia|auto].
Qed.

Lemma first_index_none {A} (p : A -> bool) (l : list A) :
  first_index p l = None <-> forall x, x ∈ l -> p x = false.
Proof.
  induction l as [|x l IH]; simpl.
  - split; [|reflexivity]. intros _ y Hy. now apply not_elem_of_nil in Hy.
  - destruct (p x) eqn:Hx.
    + split; [discriminate|]. intros H. specialize (H x). rewrite Hx in H.
      discriminate H. left.
    + destruct (first_index p l); simpl.
      * split; [discriminate|]. intros H.
        assert (Some n = None) as Habs; [|discriminate]. apply IH.
        intros y Hy. apply H. now right.
      * split; [|reflexivity]. intros _ y Hy. apply elem_of_cons in Hy as [->|Hy]; auto.
        now apply IH.
Qed.

Lemma find_existing_records agent records : forall i,
  find_existing (get "name" agent) (List.map JObj records) i =
    Ok (option_map (fun k => i + k) (first_index (same_name agent) records)).
Proof.
  induction records as [|r l IH]; intros i; simpl; [reflexivity|].
  unfold same_name at 1. destruct (py_eq _ _); simpl.
  - now rewrite Nat.add_0_r.
  - rewrite IH. destruct (first_index (same_name agent) l); simpl; [|reflexivity].
    do 2 f_equal. lia.
Qed.

Lemma map_insert_record (records : list dict) i agent :
  <[i := JObj agent]> (List.map JObj records) = List.map JObj (<[i := agent]> records).
Proof.
  revert i. induction records as [|r l IH]; intros [|i]; simpl; try reflexivity.
  now rewrite IH.
Qed.

Lemma save_agent_holds d records agent :
  holds d records ->
  save_agent agent (Parsed (JObj d)) =
    (true,
     Parsed (JObj (set_key "agents"
       (JArr (List.map JObj
          match first_index (same_name agent) records with
          | Some i => <[i := agent]> records
          | None => records ++ [agent]
          end)) d))).
Proof.
  unfold holds. intros H. unfold save_agent. simpl. rewrite H. simpl.
  rewrite find_existing_records. simpl.
  destruct (first_index (same_name agent) records) as [i|]; simpl.
  - now rewrite map_insert_record.
  - now rewrite List.map_app.
Qed.

(** C3. On a store that holds [records], [save_agent] succeeds. When a record
    has the name of [agent], the first such record is replaced at its index
    and [list_agents] keeps its length; when none has, [agent] is appended
    and the length of [list_agents] grows by exactly one. *)
Theorem save_agent_upserts d records agent :
  holds d records ->
  list_agents (Parsed (JObj d)) = JArr (List.map JObj records) /\
  exists f',
    save_agent agent (Parsed (JObj d)) = (true, f') /\
    (forall i r,
       records !! i = Some r -> same_name agent r = true ->
       (forall j r', j < i -> records !! j = Some r' -> same_name agent r' = false) ->
       list_agents f' = JArr (List.map JObj (<[i := agent]> records)) /\
       <[i := agent]> records !! i = Some agent /\
       (forall j, j <> i -> <[i := agent]> records !! j = records !! j) /\
       length (<[i := agent]> records) = length records) /\
    ((forall r, r ∈ records -> same_name agent r = false) ->
       list_agents f' = JArr (List.map JObj (records ++ [agent])) /\
       length (records ++ [agent]) = length records + 1).
Proof.
  intros H. split; [now apply list_agents_holds|].
  eexists. split; [apply (save_agent_holds d records agent H)|]. split.
  - intros i r Hi Hr Hfirst.
    assert (first_index (same_name agent) records = Some i) as ->
      by (apply first_index_some; eauto).
    rewrite list_agents_parsed. unfold get_or. rewrite lookup_set_key.
    split; [reflexivity|]. split; [|split].
    + apply list_lookup_insert_eq. now apply lookup_lt_Some in Hi.
    + intros j Hj. now apply list_lookup_insert_ne.
    + apply length_insert.
  - intros Hnone.
    assert (first_index (same_name agent) records = None) as ->
      by now apply first_index_none.
    rewrite list_agents_parsed. unfold get_or. rewrite lookup_set_key.
    split; [reflexivity|]. rewrite length_app. simpl. lia.
Qed.

(** A run of C3: the new version of ["MathAgent"] replaces the record at
    index 1 of the sample store, and the list keeps its two records. *)
Lemma save_agent_upserts_witness :
  list_agents (Parsed (JObj sample_store)) = JArr (List.map JObj sample_records) /\
  exists f',
    save_agent math_agent_update (Parsed (JObj sample_store)) = (true, f') /\
    list_agents f' = JArr (List.map JObj [story_agent; math_agent_update]).
Proof.
  destruct (save_agent_upserts sample_store sample_records math_agent_update eq_refl)
    as (Hlist & f' & Hsave & Hreplace & _).
  split; [exact Hlist|]. exists f'. split; [exact Hsave|].
  apply (Hreplace 1 math_agent); [reflexivity|reflexivity|].
  intros [|j] r Hj Hr; [|lia]. injection Hr as <-. reflexivity.
Defined.

(** *** [get_storage_stats] *)

Lemma py_eq_refl_hashable a : hashable a = true -> py_eq a a = true.
Proof.
  destruct a; simpl; try discriminate; intros _; auto.
  - now destruct b.
  - apply Z.eqb_refl.
  - apply String.eqb_refl.
Qed.

Lemma py_eq_sym_hashable a b :
  hashable a = true -> hashable b = true -> py_eq a b = py_eq b a.
Proof.
  destruct a, b; simpl; try discriminate; intros _ _; auto.
  - now destruct b, b0.
  - apply Z.eqb_sym.
  - apply Z.eqb_sym.
  - apply Z.eqb_sym.
  - apply String.eqb_sym.
Qed.

Lemma py_eq_trans_hashable a b c :
  hashable a = true -> hashable b = true -> hashable c = true ->
  py_eq a b = true -> py_eq b c = true -> py_eq a c = true.
Proof.
  destruct a as [|x|x|x| |], b as [|y|y|y| |], c as [|z|z|z| |]; simpl;
    try discriminate; intros _ _ _; auto;
    rewrite ?Z.eqb_eq, ?String.eqb_eq;
    try (destruct x); try (destruct y); try (destruct z); simpl;
    try discriminate; intros; try congruence; try lia.
Qed.

Lemma counts_total_set key c :
  counts_total (counts_set key (counts_get key c + 1) c) = counts_total c + 1.
Proof.
  unfold counts_total. induction c as [|[k n] c IH]; simpl; [lia|].
  destruct (py_eq key k); simpl; lia.
Qed.

Lemma counts_set_hashable key n c :
  hashable key = true -> Forall (fun kv => hashable (fst kv) = true) c ->
  Forall (fun kv => hashable (fst kv) = true) (counts_set key n c).
Proof.
  intros Hk. induction 1 as [|[k m] c Hh Hc IH]; simpl.
  - now repeat constructor.
  - destruct (py_eq key k); constructor; auto.
Qed.

Lemma counts_get_set key n k c :
  hashable key = true -> hashable k = true ->
  Forall (fun kv => hashable (fst kv) = true) c ->
  counts_get k (counts_set key n c) = if py_eq k key then n else counts_get k c.
Proof.
  intros Hkey Hk. induction 1 as [|[k0 m] c Hh Hc IH]; simpl in *.
  - destruct (py_eq k key); reflexivity.
  - destruct (py_eq key k0) eqn:E0; simpl.
    + destruct (py_eq k k0) eqn:E1.
      * assert (py_eq k key = true) as ->; [|reflexivity].
        apply (py_eq_trans_hashable k k0 key); auto.
        now rewrite py_eq_sym_hashable.
      * destruct (py_eq k key) eqn:E2; [|reflexivity].
        rewrite (py_eq_trans_hashable k key k0) in E1; auto. discriminate.
    + destruct (py_eq k k0) eqn:E1; [|exact IH].
      destruct (py_eq k key) eqn:E2; [|reflexivity].
      rewrite (py_eq_trans_hashable key k k0) in E0; auto; [discriminate|].
      now rewrite py_eq_sym_hashable.
Qed.

(** The number of [records] counted under a key equal to [k]. *)
Lemma count_types_records records : forall c,
  Forall (fun kv => hashable (fst kv) = true) c ->
  (forall r, r ∈ records -> hashable (counted_type r) = true) ->
  exists c',
    count_types (List.map JObj records) c = Ok c' /\
    Forall (fun kv => hashable (fst kv) = true) c' /\
    counts_total c' = counts_total c + length records /\
    forall k, hashable k = true ->
      counts_get k c' =
        counts_get k c + length (List.filter (fun r => py_eq k (counted_type r)) records).
Proof.
  induction records as [|r l IH]; intros c Hc Hall; simpl.
  - exists c. repeat split; auto; intros; lia.
  - assert (hashable (counted_type r) = true) as Hr by (apply Hall; left).
    fold (counted_type r). rewrite Hr.
    destruct (IH (counts_set (counted_type r) (counts_get (counted_type r) c + 1) c))
      as (c' & Hrun & Hc' & Htotal & Hget).
    { now apply counts_set_hashable. }
    { intros r' Hr'. apply Hall. now right. }
    exists c'. split; [exact Hrun|]. split; [exact Hc'|]. split.
    + rewrite Htotal, counts_total_set. lia.
    + intros k Hk. rewrite (Hget k Hk), counts_get_set by auto.
      destruct (py_eq k (counted_type r)) eqn:E; simpl; [|lia].
      assert (counts_get k c = counts_get (counted_type r) c) as ->; [|lia].
      clear -E Hk Hr Hc. induction Hc as [|[k0 m] c Hh Hc IH]; simpl in *; [reflexivity|].
      destruct (py_eq k k0) eqn:E1.
      * assert (py_eq (counted_type r) k0 = true) as ->; [|reflexivity].
        apply (py_eq_trans_hashable _ k); auto. now rewrite py_eq_sym_hashable.
      * destruct (py_eq (counted_type r) k0) eqn:E2; [|exact IH].
        rewrite (py_eq_trans_hashable k (counted_type r) k0) in E1; auto. discriminate.
Qed.

(** C7, as the code has it. When [list_agents] gives [records] and the task
    type of every record is hashable, [get_storage_stats] reports no error,
    a total equal to the length of the list, and counts that sum to the
    total. A record is counted under its [task_type], under ["unknown"] when
    the key is absent, and under the empty string when the type is empty. *)
Theorem stats_count_records f records :
  list_agents f = JArr (List.map JObj records) ->
  (forall r, r ∈ records -> hashable (counted_type r) = true) ->
  let s := get_storage_stats f in
  error s = None /\
  total_agents s = length records /\
  counts_total (agents_by_type s) = total_agents s /\
  (forall k, hashable k = true ->
     counts_get k (agents_by_type s) =
       length (List.filter (fun r => py_eq k (counted_type r)) records)) /\
  (forall r, lookup_key "task_type" r = None -> counted_type r = JStr "unknown") /\
  (forall r, lookup_key "task_type" r = Some (JStr "") -> counted_type r = JStr "").
Proof.
  intros Hlist Hall s. subst s. unfold get_storage_stats. rewrite Hlist. simpl.
  destruct (count_types_records records [] (List.Forall_nil _) Hall)
    as (c' & -> & _ & Htotal & Hget). simpl.
  rewrite length_map. repeat split; auto.
  - intros r Hr. unfold counted_type, get_or. now rewrite Hr.
  - intros r Hr. unfold counted_type, get_or. now rewrite Hr.
Qed.

(** A run of C7: two typed records and one without a task type. *)
Lemma stats_count_records_witness :
  total_agents (get_storage_stats (Parsed (JObj typed_and_untyped_store))) = 3 /\
  counts_total
    (agents_by_type (get_storage_stats (Parsed (JObj typed_and_untyped_store)))) = 3 /\
  counts_get (JStr "unknown")
    (agents_by_type (get_storage_stats (Parsed (JObj typed_and_untyped_store)))) = 1.
Proof.
  assert (forall r, r ∈ [story_agent; math_agent; untyped_agent] ->
                    hashable (counted_type r) = true) as Hall.
  { intros r Hr. repeat (apply elem_of_cons in Hr as [->|Hr]; [reflexivity|]).
    now apply not_elem_of_nil in Hr. }
  destruct (stats_count_records (Parsed (JObj typed_and_untyped_store))
              [story_agent; math_agent; untyped_agent] eq_refl Hall)
    as (_ & Htotal & Hsum & Hget & _).
  split; [exact Htotal|]. split; [rewrite Hsum; exact Htotal|].
  exact (Hget (JStr "unknown") eq_refl).
Defined.

(** C7, as stated, fails: a record whose task type is the empty string is
    counted under the empty string, and nothing is counted under
    ["unknown"]. *)
Lemma empty_type_not_counted_as_unknown :
  list_agents (Parsed (JObj blank_store)) = JArr [JObj blank_agent] /\
  lookup_key "task_type" blank_agent = Some (JStr "") /\
  agents_by_type (get_storage_stats (Parsed (JObj blank_store))) = [(JStr "", 1)] /\
  counts_get (JStr "unknown")
    (agents_by_type (get_storage_stats (Parsed (JObj blank_store)))) = 0.
Proof. repeat split. Qed.

(** A task type that is a list cannot be a key of [type_counts]: the handler
    of [get_storage_stats] reports no agent and the message of the error. *)
Lemma unhashable_type_is_reported :
  get_storage_stats (Parsed (JObj [("agents", JArr [JObj listed_agent])])) =
    Stats 0 [] false (Some "unhashable type: 'list'").
Proof. reflexivity. Qed.

(** *** [_ensure_storage_file] *)

(** What the load repairs: an absent file, an unparsable file and an object
    without ["agents"] all end as a store whose list is empty, and a second
    load leaves that store as it is. *)
Lemma ensure_storage_file_heals f :
  f = Missing \/ f = Unparsable \/
  (exists d, f = Parsed (JObj d) /\ has_key "agents" d = false) ->
  exists f',
    _ensure_storage_file f = (Ok tt, f') /\
    list_agents f' = JArr [] /\
    _ensure_storage_file f' = (Ok tt, f').
Proof.
  intros [->|[->|(d & -> & Hd)]].
  - exists (Parsed empty_store). repeat split.
  - exists (Parsed empty_store). repeat split.
  - exists (Parsed (JObj (set_key "agents" (JArr []) d))).
    unfold _ensure_storage_file. simpl. rewrite Hd. simpl.
    split; [reflexivity|]. split.
    + rewrite list_agents_parsed. unfold get_or. now rewrite lookup_set_key.
    + unfold has_key. now rewrite lookup_set_key.
Qed.

(** C4 on a concrete input: a storage file holding the JSON text [[]] parses,
    is not an object, and has no ["agents"] member; the load raises a
    [TypeError] and leaves the file as it was. *)
Theorem ensure_storage_file_raises_on_array :
  exists e,
    _ensure_storage_file (Parsed (JArr [])) = (Raise e, Parsed (JArr [])) /\
    class e = TypeError.
Proof. eexists. split; reflexivity. Qed.

(** A file holding a JSON string with the word in it passes the test
    ["agents" not in data] and is kept; every later [save_agent] fails. *)
Lemma ensure_storage_file_keeps_string agent :
  let f := Parsed (JStr "no agents yet") in
  _ensure_storage_file f = (Ok tt, f) /\ save_agent agent f = (false, f).
Proof. split; reflexivity. Qed.

End StorageFacts.

(** ** The orchestrator *)

Module OrchestratorFacts.
Import Py AgentStorage SimilaritySearch MasterAgent Samples.

Section Replies.
Variable json_loads : string -> option json.
Variable llm : capabilities.

Lemma analyze_task_total user_prompt :
  _analyze_task json_loads llm user_prompt =
    Ok match answer (analyzer llm user_prompt) with
       | Some text =>
           match json_loads text with
           | Some analysis => analysis
           | None => JObj fallback_analysis
           end
       | None => JObj fallback_analysis
       end.
Proof.
  unfold _analyze_task, answer, loads.
  destruct (analyzer llm user_prompt) as [e|text]; simpl; [reflexivity|].
  destruct (usable text) as [s|]; simpl; [|reflexivity].
  destruct (json_loads s); reflexivity.
Qed.

Lemma create_new_agent_total task_analysis :
  _create_new_agent json_loads llm task_analysis =
    Ok match answer (creator llm task_analysis) with
       | Some text =>
           match json_loads text with
           | Some (JObj agent_data) =>
               set_key "created_by" (JStr "MasterAgent") agent_data
           | _ => fallback_agent task_analysis
           end
       | None => fallback_agent task_analysis
       end.
Proof.
  unfold _create_new_agent, answer, loads.
  destruct (creator llm task_analysis) as [e|text]; simpl; [reflexivity|].
  destruct (usable text) as [s|]; simpl; [|reflexivity].
  destruct (json_loads s) as [[]|]; reflexivity.
Qed.

Lemma delegate_task_total agent user_prompt :
  _delegate_task llm agent user_prompt =
    Ok match responder llm (Some agent) user_prompt with
       | Fails e =>
           "Error occurred while delegating to " ++
           py_str (get "name" agent) ++ ": " ++ message e
       | Responds text =>
           match usable text with
           | Some text => text
           | None => "The specialized agent was unable to provide a response."
           end
       end.
Proof.
  unfold _delegate_task.
  destruct (responder llm (Some agent) user_prompt) as [e|text]; simpl; [reflexivity|].
  destruct (usable text); reflexivity.
Qed.

Lemma handle_directly_total user_prompt :
  _handle_directly llm user_prompt =
    Ok match responder llm None user_prompt with
       | Fails e => "I encountered an error: " ++ message e
       | Responds text =>
           match usable text with
           | Some text => text
           | None => "I'm unable to process your request at the moment."
           end
       end.
Proof.
  unfold _handle_directly.
  destruct (responder llm None user_prompt) as [e|text]; simpl; [reflexivity|].
  destruct (usable text); reflexivity.
Qed.

Lemma process_request_total request f :
  exists reply f', process_request json_loads llm request f = (Ok reply, f').
Proof.
  unfold process_request.
  destruct (handle_request json_loads llm request f) as [[reply|e] f'];
    simpl; eauto.
Qed.

End Replies.

(** C2. Whatever the three capabilities and [json.loads] do, and whatever the
    storage file holds, [process_request] returns a string. Each call of a
    capability is caught where it is made: a failed, empty or unparsable
    analysis becomes the default analysis; a failed, empty, unparsable or
    non-dict creation becomes the fallback agent; a failed or empty response
    becomes a fixed sentence. *)
Theorem process_request_always_replies json_loads llm request f :
  (exists reply f', process_request json_loads llm request f = (Ok reply, f')) /\
  (exists analysis,
     _analyze_task json_loads llm request = Ok analysis /\
     (answer (analyzer llm request) = None -> analysis = JObj fallback_analysis) /\
     (forall text, answer (analyzer llm request) = Some text ->
                   json_loads text = None -> analysis = JObj fallback_analysis)) /\
  (forall task_analysis, exists agent,
     _create_new_agent json_loads llm task_analysis = Ok agent /\
     (answer (creator llm task_analysis) = None ->
      agent = fallback_agent task_analysis) /\
     (forall text, answer (creator llm task_analysis) = Some text ->
                   (forall d, json_loads text <> Some (JObj d)) ->
                   agent = fallback_agent task_analysis)) /\
  (forall agent, exists reply,
     _delegate_task llm agent request = Ok reply /\
     (forall e, responder llm (Some agent) request = Fails e ->
        reply = "Error occurred while delegating to " ++
                py_str (get "name" agent) ++ ": " ++ message e) /\
     (forall text, responder llm (Some agent) request = Responds text ->
        usable text = None ->
        reply = "The specialized agent was unable to provide a response.")) /\
  (exists reply,
     _handle_directly llm request = Ok reply /\
     (forall e, responder llm None request = Fails e ->
        reply = "I encountered an error: " ++ message e) /\
     (forall text, responder llm None request = Responds text ->
        usable text = None ->
        reply = "I'm unable to process your request at the moment.")).
Proof.
  split; [apply process_request_total|]. split; [|split; [|split]].
  - eexists. split; [apply analyze_task_total|]. split.
    + now intros ->.
    + now intros text -> ->.
  - intros task_analysis. eexists. split; [apply create_new_agent_total|]. split.
    + now intros ->.
    + intros text -> Hd. destruct (json_loads text) as [[]|]; try reflexivity.
      now contradiction (Hd kvs).
  - intros agent. eexists. split; [apply delegate_task_total|]. split.
    + now intros e ->.
    + now intros text -> ->.
  - eexists. split; [apply handle_directly_total|]. split.
    + now intros e ->.
    + now intros text -> ->.
Qed.

(** *** Runs *)

(** The last scenario of the specification: the Creator fails, and the
    record made up for it is named ["mathAgent"]. *)
Lemma fallback_agent_for_math json_loads llm :
  creator llm math_analysis = Fails (Exn (OtherError "APIError") "quota") ->
  _create_new_agent json_loads llm math_analysis =
    Ok [ ("name", JStr "mathAgent");
         ("description", JStr "arithmetic helper");
         ("system_prompt", JStr "You are a helpful assistant specializing in math.");
         ("task_type", JStr "math");
         ("created_by", JStr "MasterAgent") ].
Proof. intros H. unfold _create_new_agent. now rewrite H. Qed.

(** Every capability fails: the default analysis asks for no delegation, and
    the reply is the sentence of [_handle_directly]. *)
Lemma all_capabilities_fail json_loads request f :
  let down := fun _ : string => Fails (Exn (OtherError "APIError") "offline") in
  process_request json_loads
    (Capabilities down (fun _ => down "") (fun _ => down)) request f =
  (Ok "I encountered an error: offline", f).
Proof. reflexivity. Qed.

(** The Analyzer answers with a JSON array: [task_analysis.get] raises, and
    the handler of [process_request] turns the exception into the reply. *)
Lemma analysis_is_a_list request f :
  let llm := Capabilities (fun _ => Responds (Some "[]"))
                          (fun _ => Responds None) (fun _ _ => Responds None) in
  process_request (fun _ => Some (JArr [])) llm request f =
  (Ok "I encountered an error while processing your request: 'list' object has no attribute 'get'",
   f).
Proof. reflexivity. Qed.

End OrchestratorFacts.

(** * Further properties *)

(** ** The shape of a normalised text and its words *)

Module TextExtra.
Import Text TextShape Py SimilaritySearch TextFacts.

Lemma tidy_any b s : tidy true s = true -> tidy b s = true.
Proof.
  destruct s as [|c s]; simpl; [reflexivity|].
  destruct (is_blank c); [discriminate|]. trivial.
Qed.

Lemma tidy_chars s : forall b,
  tidy b s = true -> all_chars (fun c => word_char c || is_blank c) s = true.
Proof.
  induction s as [|c s IH]; intros b H; simpl in *; [reflexivity|].
  destruct (is_blank c) eqn:Eb.
  - apply andb_prop in H as [_ H]. rewrite orb_true_r. simpl. now apply (IH true).
  - apply andb_prop in H as [-> H]. simpl. now apply (IH false).
Qed.

Lemma prefix_two a b s :
  String.prefix "  " (String a (String b s)) = is_blank a && is_blank b.
Proof.
  unfold is_blank. cbn [String.prefix].
  destruct (Ascii.ascii_dec " " a) as [<-|Ha].
  - destruct (Ascii.ascii_dec " " b) as [<-|Hb]; [now destruct s|].
    symmetry. apply andb_false_intro2. apply Ascii.eqb_neq. congruence.
  - symmetry. apply andb_false_intro1. apply Ascii.eqb_neq. congruence.
Qed.

Lemma tidy_prefix b s : tidy b s = true -> String.prefix "  " s = false.
Proof.
  destruct s as [|c [|c' s']]; intros H.
  - reflexivity.
  - cbn [String.prefix]. now destruct (Ascii.ascii_dec " " c).
  - rewrite prefix_two. simpl in H. destruct (is_blank c); [|reflexivity].
    apply andb_prop in H as [_ H]. destruct (is_blank c'); [discriminate|reflexivity].
Qed.

Lemma tidy_tail b c s : tidy b (String c s) = true -> exists b', tidy b' s = true.
Proof.
  simpl. destruct (is_blank c); intros H; apply andb_prop in H as [_ H]; eauto.
Qed.

Lemma tidy_no_double_space s : forall b,
  tidy b s = true -> is_substring "  " s = false.
Proof.
  induction s as [|c s IH]; intros b H; [reflexivity|].
  change (is_substring "  " (String c s))
    with (String.prefix "  " (String c s) || is_substring "  " s).
  rewrite (tidy_prefix b _ H). destruct (tidy_tail _ _ _ H) as [b' H'].
  now rewrite (IH b' H').
Qed.

(** X1. A normalised text is made of lower-case letters, digits and
    spaces; it has no two spaces in a row, and no white space at either
    end. *)
Theorem normalized_shape text :
  all_chars (fun c => word_char c || is_blank c) (_normalize_text text) = true /\
  is_substring "  " (_normalize_text text) = false /\
  strip (_normalize_text text) = _normalize_text text.
Proof.
  destruct (normalize_normal text) as [Ht Hn]. split; [|split].
  - now apply (tidy_chars _ true).
  - now apply (tidy_no_double_space _ true).
  - unfold strip. rewrite (tidy_lstrip _ Ht). now apply no_trailing_rstrip.
Qed.

Lemma join_cons_char sep c w ws :
  join sep (String c w :: ws) = String c (join sep (w :: ws)).
Proof. destruct ws; reflexivity. Qed.

Lemma split_tidy s :
  tidy false s = true -> no_trailing_space s = true ->
  join " " (split s) = lstrip s /\
  Forall is_word (split s) /\
  (s <> EmptyString -> split s <> []).
Proof.
  induction s as [|c s IH]; intros Ht Hn.
  - repeat split; [constructor|congruence].
  - simpl in Ht. destruct (is_blank c) eqn:Eb.
    + apply blank_is in Eb. subst c. simpl in Ht.
      assert (s <> EmptyString) as Hs by (intros ->; discriminate).
      assert (no_trailing_space s = true) as Hn'
        by (destruct s; [congruence|exact Hn]).
      destruct (IH (tidy_any false s Ht) Hn') as (Hj & Hw & Hne).
      simpl. split; [exact Hj|]. split; [exact Hw|]. intros _. now apply Hne.
    + apply andb_prop in Ht as [Hc Ht].
      destruct (word_char_fixed c Hc) as (_ & _ & Hsp & _).
      assert (no_trailing_space s = true) as Hn'
        by (destruct s; [reflexivity|exact Hn]).
      destruct (IH Ht Hn') as (Hj & Hw & Hne).
      simpl split. simpl lstrip. rewrite Hsp.
      destruct s as [|c' s'].
      * simpl. repeat split; [|congruence].
        repeat constructor; [congruence|]. simpl. now rewrite Hc.
      * specialize (Hne ltac:(congruence)).
        unfold starts_word. destruct (is_space c') eqn:Esp'; simpl negb; cbv iota.
        -- destruct (split (String c' s')) as [|w ws] eqn:Es; [congruence|].
           pose proof (tidy_space_is_blank _ _ _ Ht Esp') as Hb'.
           apply blank_is in Hb'. subst c'.
           repeat split; [| |congruence].
           ++ change (join " " (String c "" :: w :: ws))
                with (String c (" " ++ join " " (w :: ws))).
              rewrite Hj. simpl. simpl in Ht.
              now rewrite (tidy_lstrip s' Ht).
           ++ constructor; [|exact Hw]. split; [congruence|]. simpl. now rewrite Hc.
        -- destruct (split (String c' s')) as [|w ws] eqn:Es; [congruence|].
           repeat split; [| |congruence].
           ++ rewrite join_cons_char, Hj. simpl. now rewrite Esp'.
           ++ inversion Hw as [|? ? [Hw1 Hw2] Hws]. subst.
              constructor; [|exact Hws]. split; [congruence|]. simpl. now rewrite Hc.
Qed.

(** X2. The words the metrics work on are the pieces of the normalised text
    between its spaces: joined by single spaces they give the normalised text
    back; each word is non-empty and made of lower-case letters and digits;
    there is no word exactly when the normalised text is empty. *)
Theorem words_of_normalized text :
  join " " (words text) = _normalize_text text /\
  Forall is_word (words text) /\
  (words text = [] <-> _normalize_text text = EmptyString).
Proof.
  destruct (normalize_normal text) as [Ht Hn]. unfold words.
  destruct (split_tidy (_normalize_text text) (tidy_any false _ Ht) Hn)
    as (Hj & Hw & Hne).
  rewrite (tidy_lstrip _ Ht) in Hj. split; [exact Hj|]. split; [exact Hw|].
  split.
  - intros H. destruct (_normalize_text text); [reflexivity|].
    now contradiction Hne.
  - now intros ->.
Qed.

End TextExtra.

(** ** The three metrics and the score *)

Module ScorerExtra.
Import Text TextShape Py SimilaritySearch TextFacts ScorerFacts Samples.

Local Open Scope R_scope.

Lemma unit_ratio a b : 0 <= a <= b -> 0 < b -> 0 <= a / b <= 1.
Proof.
  intros [Ha Hab] Hb. split.
  - unfold Rdiv. apply Rle_mult_inv_pos; assumption.
  - apply (Rmult_le_reg_r b); [assumption|].
    replace (a / b * b) with a by (field; lra). lra.
Qed.

Lemma ratio_in_unit (i u : nat) : (i <= u)%nat -> (0 < u)%nat -> 0 <= INR i / INR u <= 1.
Proof.
  intros Hle Hpos. apply le_INR in Hle. apply lt_INR in Hpos. simpl in Hpos.
  pose proof (pos_INR i). apply unit_ratio; lra.
Qed.

Lemma jaccard_range text1 text2 : 0 <= _jaccard_similarity text1 text2 <= 1.
Proof.
  unfold _jaccard_similarity. cbv zeta.
  - destruct (is_empty (tokens text1) && is_empty (tokens text2)); [lra|].
    destruct (is_empty (tokens text1) || is_empty (tokens text2)); [lra|].
    destruct (Nat.ltb_spec 0 (size (tokens text1 ∪ tokens text2))) as [Hpos|]; [|lra].
    apply ratio_in_unit; [|exact Hpos].
    apply subseteq_size. transitivity (tokens text1);
      [apply intersection_subseteq_l|apply union_subseteq_l].
Qed.

(** X3. The Jaccard score does not depend on the order of its two texts, and
    it lies between 0 and 1. *)
Theorem jaccard_symmetric_bounded text1 text2 :
  _jaccard_similarity text1 text2 = _jaccard_similarity text2 text1 /\
  0 <= _jaccard_similarity text1 text2 <= 1.
Proof.
  split; [|apply jaccard_range].
  unfold _jaccard_similarity. cbv zeta.
  rewrite (andb_comm (is_empty (tokens text1))), (orb_comm (is_empty (tokens text1))).
  assert (tokens text1 ∩ tokens text2 = tokens text2 ∩ tokens text1) as ->
    by apply (comm_L _).
  assert (tokens text1 ∪ tokens text2 = tokens text2 ∪ tokens text1) as ->
    by apply (comm_L _).
  reflexivity.
Qed.

Lemma keyword_range text1 text2 : 0 <= _keyword_overlap_similarity text1 text2 <= 1.
Proof.
  unfold _keyword_overlap_similarity. cbv zeta.
  - destruct (is_empty (keywords text1) && is_empty (keywords text2)); [lra|].
    destruct (is_empty (keywords text1) || is_empty (keywords text2)); [lra|].
    destruct (Nat.ltb_spec 0 (Nat.max (size (keywords text1)) (size (keywords text2))))
      as [Hpos|]; [|lra].
    apply ratio_in_unit; [|exact Hpos].
    assert (size (keywords text1 ∩ keywords text2) <= size (keywords text1))%nat
      by apply subseteq_size, intersection_subseteq_l.
    lia.
Qed.

(** X4. The keyword overlap score does not depend on the order of its two
    texts, and it lies between 0 and 1. *)
Theorem keyword_overlap_symmetric_bounded text1 text2 :
  _keyword_overlap_similarity text1 text2 = _keyword_overlap_similarity text2 text1 /\
  0 <= _keyword_overlap_similarity text1 text2 <= 1.
Proof.
  split; [|apply keyword_range].
  unfold _keyword_overlap_similarity. cbv zeta.
  rewrite (andb_comm (is_empty (keywords text1))), (orb_comm (is_empty (keywords text1))).
  assert (keywords text1 ∩ keywords text2 = keywords text2 ∩ keywords text1) as ->
    by apply (comm_L _).
  rewrite (Nat.max_comm (size (keywords text1))).
  reflexivity.
Qed.

(** *** The cosine score *)


Lemma square_step (x y a b d : Z) :
  (0 <= x)%Z -> (0 <= y)%Z -> (0 <= a)%Z -> (0 <= b)%Z -> (0 <= d)%Z ->
  (d * d <= a * b)%Z ->
  ((x * y + d) * (x * y + d) <= (x * x + a) * (y * y + b))%Z.
Proof.
  intros Hx Hy Ha Hb Hd H.
  assert (2 * (x * y * d) <= x * x * b + y * y * a)%Z as Hmid.
  { apply Z.square_le_simpl_nonneg; [nia|].
    assert (0 <= x * y)%Z by nia.
    assert ((x * y) * (x * y) * (d * d) <= (x * y) * (x * y) * (a * b))%Z
      by (apply Z.mul_le_mono_nonneg_l; nia).
    pose proof (Z.square_nonneg (x * x * b - y * y * a)).
    nia. }
  nia.
Qed.

(** The inequality of Cauchy and Schwarz for vectors of counts. *)
Lemma dot_squared v1 : forall v2,
  (dot v1 v2 * dot v1 v2 <= dot v1 v1 * dot v2 v2)%nat.
Proof.
  induction v1 as [|x v1 IH]; intros [|y v2]; simpl; try lia.
  specialize (IH v2).
  pose proof (square_step (Z.of_nat x) (Z.of_nat y) (Z.of_nat (dot v1 v1))
                (Z.of_nat (dot v2 v2)) (Z.of_nat (dot v1 v2))).
  nia.
Qed.

Lemma dot_below_norms v1 v2 : INR (dot v1 v2) <= norm v1 * norm v2.
Proof.
  unfold norm. rewrite <- sqrt_mult by apply pos_INR.
  rewrite <- (sqrt_square (INR (dot v1 v2))) by apply pos_INR.
  apply sqrt_le_1_alt. rewrite <- !mult_INR. apply le_INR, dot_squared.
Qed.


Lemma cosine_range text1 text2 : 0 <= _cosine_similarity_simple text1 text2 <= 1.
Proof.
  rewrite cosine_unfold. cbv zeta.
  set (vocab := vocabulary (words text1) (words text2)).
  pose proof (norm_frequencies_left (words text1) (words text2)) as H1.
  pose proof (norm_frequencies_right (words text1) (words text2)) as H2.
  fold vocab in H1, H2.
  destruct (words text1) as [|w1 ws1] eqn:E1, (words text2) as [|w2 ws2] eqn:E2;
    try lra.
  set (v1 := frequencies (w1 :: ws1) vocab) in *.
  set (v2 := frequencies (w2 :: ws2) vocab) in *.
  assert (0 < norm v1) as Hn1.
  { destruct (Rle_lt_or_eq_dec 0 (norm v1)) as [|Hz];
      [apply sqrt_pos|assumption|]. symmetry in Hz. now apply H1 in Hz. }
  assert (0 < norm v2) as Hn2.
  { destruct (Rle_lt_or_eq_dec 0 (norm v2)) as [|Hz];
      [apply sqrt_pos|assumption|]. symmetry in Hz. now apply H2 in Hz. }
  pose proof (dot_below_norms v1 v2). pose proof (pos_INR (dot v1 v2)).
  assert (0 < norm v1 * norm v2) by now apply Rmult_lt_0_compat.
  apply unit_ratio; lra.
Qed.



End ScorerExtra.

(** ** The score of like texts, and the matcher *)

Module MatcherExtra.
Import Text TextShape Py SimilaritySearch TextFacts ScorerFacts MatcherFacts
       ScorerExtra Samples.

Local Open Scope R_scope.

Lemma words_normalized text : words (_normalize_text text) = words text.
Proof. unfold words. now rewrite (normal_fixed _ (normalize_normal text)). Qed.

(** The three metrics read a text through its list of words only. *)
Lemma metrics_by_words text1 text1' text2 :
  words text1 = words text1' ->
  _jaccard_similarity text1 text2 = _jaccard_similarity text1' text2 /\
  _keyword_overlap_similarity text1 text2 = _keyword_overlap_similarity text1' text2 /\
  _cosine_similarity_simple text1 text2 = _cosine_similarity_simple text1' text2.
Proof.
  intros H.
  unfold _jaccard_similarity, _keyword_overlap_similarity,
    _cosine_similarity_simple, tokens, keywords.
  now rewrite H.
Qed.

Lemma score_by_words query query' agent :
  words query = words query' ->
  _calculate_similarity query agent = _calculate_similarity query' agent.
Proof.
  intros H. unfold _calculate_similarity. cbv zeta.
  destruct (metrics_by_words query query' (agent_text agent) H) as (-> & -> & ->).
  reflexivity.
Qed.

Lemma scan_ext (f g : dict -> R) agents :
  (forall a, f a = g a) -> scan f agents = scan g agents.
Proof.
  intros H. unfold scan. generalize (@None dict, 0.09).
  induction agents as [|x l IH]; intros best; simpl; [reflexivity|].
  unfold scan_step at 2 4. now rewrite H, IH.
Qed.

Lemma find_by_words threshold query query' agents :
  words query = words query' ->
  find_similar_agent threshold query agents =
    find_similar_agent threshold query' agents.
Proof.
  intros H. unfold find_similar_agent.
  rewrite (scan_ext (_calculate_similarity query) (_calculate_similarity query'));
    [reflexivity|].
  intros a. now apply score_by_words.
Qed.

(** X7. Two queries with the same normal form, which differ in letter case,
    punctuation or spacing at most, score every agent alike and find the
    same agent. *)
Theorem same_normal_form_same_match threshold query query' agents :
  _normalize_text query = _normalize_text query' ->
  (forall agent, _calculate_similarity query agent =
                 _calculate_similarity query' agent) /\
  find_similar_agent threshold query agents =
    find_similar_agent threshold query' agents.
Proof.
  intros H. assert (words query = words query') as Hw by (unfold words; now rewrite H).
  split; [intros agent; now apply score_by_words|now apply find_by_words].
Qed.

Lemma same_normal_form_same_match_witness :
  find_similar_agent default_threshold "Algebra: equation-solver!" [math_agent] =
  find_similar_agent default_threshold "algebra equation solver" [math_agent].
Proof.
  apply (same_normal_form_same_match default_threshold
           "Algebra: equation-solver!" "algebra equation solver" [math_agent]).
  reflexivity.
Defined.





(** X9. When neither the query nor the text of the agent has a word longer
    than three characters, the keyword metric is 1 and the score is at least
    0.3, whatever the words are: such an agent is found under every threshold
    up to 0.3. *)
Theorem short_words_always_match threshold query agent :
  is_empty (keywords query) = true ->
  is_empty (keywords (agent_text agent)) = true ->
  0.3 <= _calculate_similarity query agent /\
  (threshold <= 0.3 -> nonempty agent = true ->
   find_similar_agent threshold query [agent] = Some agent).
Proof.
  intros Hq Ha.
  assert (0.3 <= _calculate_similarity query agent) as Hs.
  { unfold _calculate_similarity, weighted_sum. cbv zeta.
    assert (_keyword_overlap_similarity query (agent_text agent) = 1) as ->
      by (unfold _keyword_overlap_similarity; cbv zeta; now rewrite Hq, Ha).
    pose proof (jaccard_range query (agent_text agent)).
    pose proof (cosine_range query (agent_text agent)).
    apply Rmin_glb; lra. }
  split; [exact Hs|]. intros Hthr Hne.
  apply find_similar_agent_spec. exists 0%nat. repeat split; try lra; try assumption.
  - intros [|j] b Hj; simpl in Hj; [injection Hj as <-; lra|discriminate].
  - intros j b Hj. lia.
Qed.

Lemma short_words_always_match_witness :
  0.3 <= _calculate_similarity errand_query bug_agent /\
  find_similar_agent default_threshold errand_query [bug_agent] = Some bug_agent.
Proof.
  destruct (short_words_always_match default_threshold errand_query bug_agent)
    as [Hs Hfind]; [reflexivity|reflexivity|].
  split; [exact Hs|]. apply Hfind; [unfold default_threshold; lra|reflexivity].
Defined.

Lemma option_by_some {A} (o1 o2 : option A) :
  (forall a, o1 = Some a <-> o2 = Some a) -> o1 = o2.
Proof.
  intros H. destruct o1 as [a|].
  - symmetry. now apply H.
  - destruct o2 as [a|]; [|reflexivity]. now apply H.
Qed.

(** X10. A threshold at or below 0.09 has no effect: [find_similar_agent]
    returns what it returns with the default threshold. Above that, an agent
    found under a threshold is found under every lower one. *)
Theorem low_thresholds_agree threshold query agents :
  (threshold <= 0.09 ->
   find_similar_agent threshold query agents =
     find_similar_agent default_threshold query agents) /\
  (forall lower a, lower <= threshold ->
     find_similar_agent threshold query agents = Some a ->
     find_similar_agent lower query agents = Some a).
Proof.
  split.
  - intros Hthr. apply option_by_some. intros a.
    rewrite !find_similar_agent_spec. unfold default_threshold.
    split; intros (i & Hbest & Hgt & _ & Hne); exists i; repeat split;
      try assumption; try apply Hbest; lra.
  - intros lower a Hle. rewrite !find_similar_agent_spec.
    intros (i & Hbest & Hgt & Hge & Hne). exists i. repeat split;
      try assumption; try apply Hbest; lra.
Qed.

(** *** [get_similarity_scores] *)

Lemma insert_by_score_perm x l : insert_by_score x l ≡ₚ x :: l.
Proof.
  induction l as [|y l IH]; simpl; [reflexivity|].
  destruct (Rgt_dec _ _); [reflexivity|]. rewrite IH. apply Permutation_swap.
Qed.

Lemma insert_by_score_decreasing x l :
  decreasing l -> decreasing (insert_by_score x l).
Proof.
  induction l as [|y l IH]; simpl; [intros _; split; [constructor|exact I]|].
  intros [Hy Hl]. destruct (Rgt_dec _ _) as [Hgt|Hle]; simpl.
  - repeat split; try assumption. constructor; [lra|].
    eapply Forall_impl; [exact Hy|]. simpl. intros z Hz. lra.
  - split; [|now apply IH].
    rewrite insert_by_score_perm. constructor; [lra|exact Hy].
Qed.

Lemma sort_by_score_sorted l : forall sorted,
  decreasing sorted ->
  decreasing (fold_left (fun s x => insert_by_score x s) l sorted) /\
  fold_left (fun s x => insert_by_score x s) l sorted ≡ₚ sorted ++ l.
Proof.
  induction l as [|x l IH]; intros sorted H; simpl.
  - split; [exact H|]. now rewrite app_nil_r.
  - destruct (IH (insert_by_score x sorted) (insert_by_score_decreasing x sorted H))
      as [Hd Hp].
    split; [exact Hd|]. rewrite Hp, insert_by_score_perm.
    simpl. apply Permutation_middle.
Qed.

(** X11. [get_similarity_scores] returns one entry for each agent, by
    decreasing score; an entry holds the score of its agent, and its flag
    tells whether the score reaches the threshold. *)
Theorem similarity_scores_sorted threshold query agents :
  let results := get_similarity_scores threshold query agents in
  results ≡ₚ List.map (similarity_entry threshold query) agents /\
  length results = length agents /\
  decreasing results /\
  Forall (fun entry =>
            snd (fst entry) = _calculate_similarity query (fst (fst entry)) /\
            (snd entry = true <-> snd (fst entry) >= threshold)) results.
Proof.
  intros results. subst results. unfold get_similarity_scores, sort_by_score.
  destruct (sort_by_score_sorted (List.map (similarity_entry threshold query) agents)
              [] I) as [Hd Hp].
  simpl in Hp. split; [exact Hp|]. split; [|split; [exact Hd|]].
  - rewrite Hp. apply length_map.
  - rewrite Hp. apply List.Forall_map. apply List.Forall_forall. intros a _.
    unfold similarity_entry. simpl. split; [reflexivity|].
    destruct (Rge_dec _ _); split; intros; try assumption; try reflexivity;
      try discriminate; contradiction.
Qed.

(** The first entry of a stable sort by decreasing score is the earliest
    entry with the greatest score. *)
Lemma sort_by_score_head l :
  l <> [] ->
  exists i e,
    l !! i = Some e /\ head (sort_by_score l) = Some e /\
    (forall j e', l !! j = Some e' -> snd (fst e') <= snd (fst e)) /\
    (forall j e', (j < i)%nat -> l !! j = Some e' -> snd (fst e') < snd (fst e)).
Proof.
  induction l as [|x l IH] using rev_ind; [congruence|]. intros _.
  unfold sort_by_score in *. rewrite fold_left_app. simpl.
  destruct l as [|y l'] eqn:El.
  - simpl. exists 0%nat, x. repeat split.
    + intros [|j] e' Hj; simpl in Hj; [injection Hj as <-; lra|discriminate].
    + intros j e' Hj. lia.
  - rewrite <- El in *. destruct IH as (i & e & Hi & Hhead & Hmax & Hfirst);
      [now rewrite El|].
    destruct (fold_left _ l []) as [|h rest] eqn:Es; [discriminate|].
    simpl in Hhead. injection Hhead as ->. simpl.
    destruct (Rgt_dec (snd (fst x)) (snd (fst e))) as [Hgt|Hle]; simpl.
    + exists (length l), x. repeat split.
      * now rewrite list_lookup_middle.
      * intros j e' Hj. apply lookup_app_Some in Hj as [Hj|[_ Hj]].
        -- pose proof (Hmax _ _ Hj). lra.
        -- destruct (j - length l)%nat; simpl in Hj; [|discriminate].
           injection Hj as <-. lra.
      * intros j e' Hlt Hj. rewrite lookup_app_l in Hj by exact Hlt.
        pose proof (Hmax _ _ Hj). lra.
    + exists i, e. repeat split.
      * now apply lookup_app_l_Some.
      * intros j e' Hj. apply lookup_app_Some in Hj as [Hj|[_ Hj]]; [eauto|].
        destruct (j - length l)%nat; simpl in Hj; [|discriminate].
        injection Hj as <-. lra.
      * intros j e' Hlt Hj. apply lookup_lt_Some in Hi.
        rewrite lookup_app_l in Hj by lia. eauto.
Qed.

(** X12. The agent [find_similar_agent] returns is the agent of the first
    entry of [get_similarity_scores], and that entry is flagged as meeting
    the threshold. *)
Theorem found_agent_heads_scores threshold query agents a :
  find_similar_agent threshold query agents = Some a ->
  head (get_similarity_scores threshold query agents) =
    Some (a, _calculate_similarity query a, true).
Proof.
  intros H. apply find_similar_agent_spec in H as (i & (Hi & Hmax & Hfirst) & _ & Hge & _).
  unfold get_similarity_scores.
  destruct (sort_by_score_head (List.map (similarity_entry threshold query) agents))
    as (i' & e & Hi' & -> & Hmax' & Hfirst').
  { intros Hnil. apply List.map_eq_nil in Hnil. subst agents. discriminate. }
  f_equal. rewrite list_lookup_fmap in Hi'.
  destruct (agents !! i') as [a'|] eqn:Ea'; [|discriminate].
  simpl in Hi'. injection Hi' as <-.
  assert (forall j b, agents !! j = Some b ->
            List.map (similarity_entry threshold query) agents !! j
            = Some (similarity_entry threshold query b)) as Hentry.
  { intros j b Hj. rewrite list_lookup_fmap, Hj. reflexivity. }
  assert (i = i') as <-.
  { destruct (Nat.lt_trichotomy i i') as [Hlt|[Heq|Hlt]]; [|assumption|].
    - pose proof (Hfirst' _ _ Hlt (Hentry _ _ Hi)) as H1. simpl in H1.
      pose proof (Hmax _ _ Ea'). lra.
    - pose proof (Hfirst _ _ Hlt Ea').
      pose proof (Hmax' _ _ (Hentry _ _ Hi)) as H1. simpl in H1. lra. }
  assert (a' = a) as -> by congruence.
  unfold similarity_entry. destruct (Rge_dec _ _); [reflexivity|contradiction].
Qed.

Lemma found_agent_heads_scores_witness :
  head (get_similarity_scores default_threshold math_query
          [math_agent; math_agent_again]) =
    Some (math_agent, _calculate_similarity math_query math_agent, true).
Proof.
  exact (found_agent_heads_scores default_threshold math_query
           [math_agent; math_agent_again] math_agent math_agent_found).
Defined.

End MatcherExtra.

(** ** The registry: lookup, deletion, filters *)

Module StorageExtra.
Import Text Py AgentStorage StorageFacts Samples.

Lemma holds_after_set d v records :
  v = JArr (List.map JObj records) -> holds (set_key "agents" v d) records.
Proof. intros ->. unfold holds. apply lookup_set_key. Qed.

Lemma find_named_records name records :
  find_named name (List.map JObj records) =
    Ok (List.find (fun r => py_eq (get "name" r) name) records).
Proof.
  induction records as [|r l IH]; simpl; [reflexivity|].
  destruct (py_eq (get "name" r) name); [reflexivity|exact IH].
Qed.

Lemma get_agent_holds d records agent_name :
  holds d records ->
  get_agent agent_name (Parsed (JObj d)) = List.find (named agent_name) records.
Proof.
  unfold holds, get_agent. intros H. simpl. rewrite H. simpl.
  now rewrite find_named_records.
Qed.

Lemma find_after_insert {A} (p : A -> bool) (l : list A) i a :
  first_index p l = Some i -> p a = true -> List.find p (<[i := a]> l) = Some a.
Proof.
  revert i. induction l as [|x l IH]; intros i; simpl; [discriminate|].
  destruct (p x) eqn:Hx.
  - intros [= <-] Ha. simpl. now rewrite Ha.
  - destruct (first_index p l) as [k|]; simpl; [|discriminate].
    intros [= <-] Ha. simpl. rewrite Hx. now apply IH.
Qed.

Lemma find_after_append {A} (p : A -> bool) (l : list A) a :
  first_index p l = None -> p a = true -> List.find p (l ++ [a]) = Some a.
Proof.
  induction l as [|x l IH]; simpl; [now intros _ ->|].
  destruct (p x) eqn:Hx; [discriminate|].
  destruct (first_index p l); simpl; [discriminate|]. auto.
Qed.

Lemma first_index_ext {A} (p q : A -> bool) (l : list A) :
  (forall x, p x = q x) -> first_index p l = first_index q l.
Proof. intros H. induction l as [|x l IH]; simpl; [reflexivity|]. now rewrite H, IH. Qed.

Lemma save_agent_saved d records agent :
  holds d records ->
  save_agent agent (Parsed (JObj d)) =
    (true, Parsed (JObj (set_key "agents" (JArr (List.map JObj (saved agent records))) d))).
Proof. apply save_agent_holds. Qed.

Lemma same_name_self agent :
  hashable (get "name" agent) = true -> same_name agent agent = true.
Proof. apply py_eq_refl_hashable. Qed.

Lemma find_saved agent records :
  hashable (get "name" agent) = true ->
  List.find (same_name agent) (saved agent records) = Some agent.
Proof.
  intros Hh. unfold saved.
  destruct (first_index (same_name agent) records) as [i|] eqn:E.
  - apply find_after_insert; [exact E|now apply same_name_self].
  - apply find_after_append; [exact E|now apply same_name_self].
Qed.

(** X13. After [save_agent] has stored an agent whose name is a string,
    [get_agent] with that name returns this very agent, whether the name was
    in the store before or not. *)
Theorem get_agent_after_save d records agent agent_name :
  holds d records ->
  get "name" agent = JStr agent_name ->
  get_agent agent_name (snd (save_agent agent (Parsed (JObj d)))) = Some agent.
Proof.
  intros H Hname. rewrite (save_agent_saved d records agent H). simpl snd.
  rewrite (get_agent_holds _ (saved agent records)) by now apply holds_after_set.
  rewrite <- (find_saved agent records) by (rewrite Hname; reflexivity).
  f_equal. unfold named, same_name. now rewrite Hname.
Qed.

Lemma get_agent_after_save_witness :
  get_agent "MathAgent"
    (snd (save_agent math_agent_update (Parsed (JObj sample_store))))
  = Some math_agent_update.
Proof.
  apply (get_agent_after_save sample_store sample_records); reflexivity.
Defined.

(** *** [delete_agent] *)

Lemma without_name_records name records :
  without_name name (List.map JObj records) =
    Ok (List.map JObj
          (List.filter (fun r => negb (py_eq (get "name" r) name)) records)).
Proof.
  induction records as [|r l IH]; simpl; [reflexivity|].
  rewrite IH. simpl. destruct (py_eq (get "name" r) name); reflexivity.
Qed.

Lemma filter_shorter {A} (p : A -> bool) (l : list A) :
  (length (List.filter (fun x => negb (p x)) l) <? length l)%nat = existsb p l.
Proof.
  induction l as [|x l IH]; simpl; [reflexivity|].
  pose proof (List.filter_length_le (fun x => negb (p x)) l) as Hle.
  destruct (p x); simpl.
  - apply Nat.ltb_lt. lia.
  - exact IH.
Qed.

Lemma delete_agent_holds d records agent_name :
  holds d records ->
  delete_agent agent_name (Parsed (JObj d)) =
    if existsb (named agent_name) records
    then (true,
          Parsed (JObj (set_key "agents"
            (JArr (List.map JObj
               (List.filter (fun r => negb (named agent_name r)) records))) d)))
    else (false, Parsed (JObj d)).
Proof.
  unfold holds, delete_agent. intros H. simpl. rewrite H. simpl.
  rewrite without_name_records. simpl. rewrite !length_map.
  fold (named agent_name). rewrite (filter_shorter (named agent_name)).
  destruct (existsb (named agent_name) records); reflexivity.
Qed.

(** X14. [delete_agent] returns true exactly when a record has the name. It
    then writes the store without every record of that name, the other
    records in their order; when no record has the name it returns false and
    leaves the file as it is. *)
Theorem delete_agent_removes_all d records agent_name :
  holds d records ->
  let kept := List.filter (fun r => negb (named agent_name r)) records in
  (fst (delete_agent agent_name (Parsed (JObj d))) = true <->
   exists r, r ∈ records /\ named agent_name r = true) /\
  (fst (delete_agent agent_name (Parsed (JObj d))) = true ->
   list_agents (snd (delete_agent agent_name (Parsed (JObj d))))
     = JArr (List.map JObj kept)) /\
  (fst (delete_agent agent_name (Parsed (JObj d))) = false ->
   snd (delete_agent agent_name (Parsed (JObj d))) = Parsed (JObj d)) /\
  (forall r, r ∈ kept -> r ∈ records /\ named agent_name r = false).
Proof.
  intros H kept. rewrite (delete_agent_holds d records agent_name H).
  split; [|split; [|split]].
  - destruct (existsb (named agent_name) records) eqn:E; simpl.
    + split; [intros _|reflexivity]. apply List.existsb_exists in E as (r & Hr & Hn).
      exists r. split; [now apply list_elem_of_In|exact Hn].
    + split; [discriminate|]. intros (r & Hr & Hn).
      assert (existsb (named agent_name) records = true) as E'
        by (apply List.existsb_exists; exists r; split;
            [now apply list_elem_of_In|exact Hn]).
      congruence.
  - destruct (existsb (named agent_name) records); simpl; [intros _|discriminate].
    rewrite list_agents_parsed. unfold get_or. now rewrite lookup_set_key.
  - destruct (existsb (named agent_name) records); simpl; [discriminate|reflexivity].
  - intros r Hr. apply list_elem_of_In in Hr. apply List.filter_In in Hr as [Hr Hn].
    split; [now apply list_elem_of_In|]. now destruct (named agent_name r).
Qed.

Lemma delete_agent_removes_all_witness :
  fst (delete_agent "MathAgent" (Parsed (JObj sample_store))) = true /\
  list_agents (snd (delete_agent "MathAgent" (Parsed (JObj sample_store))))
    = JArr [JObj story_agent].
Proof.
  destruct (delete_agent_removes_all sample_store sample_records "MathAgent" eq_refl)
    as (Hflag & Hlist & _).
  assert (fst (delete_agent "MathAgent" (Parsed (JObj sample_store))) = true) as Ht.
  { apply Hflag. exists math_agent. split; [|reflexivity]. right. left. }
  split; [exact Ht|]. exact (Hlist Ht).
Defined.





(** *** What [save_agent] keeps *)

Lemma find_first_index {A} (p : A -> bool) (l : list A) a :
  List.find p l = Some a -> exists i, first_index p l = Some i /\ l !! i = Some a.
Proof.
  induction l as [|x l IH]; simpl; [discriminate|].
  destruct (p x).
  - intros [= <-]. now exists 0.
  - intros H. destruct (IH H) as (i & -> & Hi). now exists (S i).
Qed.





Lemma same_name_sym r r' :
  hashable (get "name" r) = true -> hashable (get "name" r') = true ->
  same_name r r' = same_name r' r.
Proof. intros H H'. unfold same_name. now apply py_eq_sym_hashable. Qed.

(** X17. [save_agent] keeps the names of the store distinct: when no two
    records have equal names before, none have after, so that a name stays
    the key of at most one record. *)
Theorem save_agent_keeps_names_distinct d records agent :
  holds d records ->
  (forall r, r ∈ records -> hashable (get "name" r) = true) ->
  hashable (get "name" agent) = true ->
  distinct_names records ->
  exists records',
    list_agents (snd (save_agent agent (Parsed (JObj d))))
      = JArr (List.map JObj records') /\
    agent ∈ records' /\
    distinct_names records'.
Proof.
  intros H Hh Ha Hd. exists (saved agent records).
  rewrite (save_agent_saved d records agent H). simpl snd.
  split; [rewrite list_agents_parsed; unfold get_or; now rewrite lookup_set_key|].
  split.
  { destruct (find_first_index _ _ _ (find_saved agent records Ha)) as (i & _ & Hi).
    apply list_elem_of_lookup. eauto. }
  assert (forall j r, records !! j = Some r -> hashable (get "name" r) = true) as Hh'
    by (intros j r Hj; apply Hh, list_elem_of_lookup; eauto).
  unfold saved. destruct (first_index (same_name agent) records) as [i|] eqn:E.
  - apply first_index_some in E as (x & Hi & Hx & _).
    pose proof (lookup_lt_Some _ _ _ Hi) as Hlt.
    pose proof (Hh' _ _ Hi) as Hhx. unfold same_name in Hx.
    intros j k r r' Hjk Hj Hk.
    destruct (decide (j = i)) as [->|Hji].
    + rewrite list_lookup_insert_eq in Hj by exact Hlt. injection Hj as <-.
      rewrite list_lookup_insert_ne in Hk by congruence.
      pose proof (Hd i k x r' Hjk Hi Hk) as Hold. unfold same_name in *.
      destruct (py_eq (get "name" r') (get "name" agent)) eqn:E'; [|reflexivity].
      rewrite <- Hold. symmetry.
      apply (py_eq_trans_hashable _ (get "name" agent)); eauto.
      rewrite py_eq_sym_hashable; eauto.
    + rewrite list_lookup_insert_ne in Hj by congruence.
      destruct (decide (k = i)) as [->|Hki].
      * rewrite list_lookup_insert_eq in Hk by exact Hlt. injection Hk as <-.
        pose proof (Hd j i r x Hjk Hj Hi) as Hold. unfold same_name in *.
        destruct (py_eq (get "name" agent) (get "name" r)) eqn:E'; [|reflexivity].
        rewrite <- Hold. symmetry.
        apply (py_eq_trans_hashable _ (get "name" agent)); eauto.
      * rewrite list_lookup_insert_ne in Hk by congruence. eauto.
  - pose proof (proj1 (first_index_none _ _) E) as Hnone.
    intros j k r r' Hjk Hj Hk.
    apply lookup_app_Some in Hj as [Hj|[Hjl Hj]];
      apply lookup_app_Some in Hk as [Hk|[Hkl Hk]].
    + eauto.
    + destruct (k - length records); simpl in Hk; [|discriminate]. injection Hk as <-.
      rewrite same_name_sym; eauto. apply Hnone, list_elem_of_lookup. eauto.
    + destruct (j - length records); simpl in Hj; [|discriminate]. injection Hj as <-.
      apply Hnone, list_elem_of_lookup. eauto.
    + destruct (j - length records) eqn:Ej; simpl in Hj; [|discriminate].
      destruct (k - length records) eqn:Ek; simpl in Hk; [|discriminate]. lia.
Qed.

Lemma save_agent_keeps_names_distinct_witness :
  exists records',
    list_agents (snd (save_agent math_agent_update (Parsed (JObj sample_store))))
      = JArr (List.map JObj records') /\
    math_agent_update ∈ records' /\
    distinct_names records'.
Proof.
  apply (save_agent_keeps_names_distinct sample_store sample_records).
  - reflexivity.
  - intros r Hr. repeat (apply elem_of_cons in Hr as [->|Hr]; [reflexivity|]).
    now apply not_elem_of_nil in Hr.
  - reflexivity.
  - intros [|[|j]] [|[|k]] r r' Hjk Hj Hk; simpl in Hj, Hk;
      try discriminate; try lia; injection Hj as <-; injection Hk as <-; reflexivity.
Defined.

(** X18. [save_agent] returns true only where the file holds an object whose
    ["agents"] member is a list. Everywhere else (an absent or unparsable
    file, another JSON value, no ["agents"], a value that is no list) it
    returns false and leaves the file as it is; it never creates the file. *)
Theorem save_agent_needs_a_list agent f :
  (fst (save_agent agent f) = true ->
   exists d l, f = Parsed (JObj d) /\ lookup_key "agents" d = Some (JArr l)) /\
  (fst (save_agent agent f) = false -> snd (save_agent agent f) = f).
Proof.
  unfold save_agent.
  destruct f as [|reason| |[| | | | |d]]; simpl; try (split; [discriminate|reflexivity]).
  destruct (lookup_key "agents" d) as [agents|] eqn:E; simpl;
    [|split; [discriminate|reflexivity]].
  destruct agents as [| | |s|l|o]; simpl; try (split; [discriminate|reflexivity]).
  - destruct (chars s); split; (discriminate || reflexivity).
  - destruct (find_existing (get "name" agent) l 0) as [[i|]|e]; simpl;
      split; try discriminate; try reflexivity; intros _; eauto.
  - destruct (List.map _ o); split; (discriminate || reflexivity).
Qed.

(** *** [_ensure_storage_file] *)

Lemma lookup_set_key_ne k k' v d :
  k <> k' -> lookup_key k (set_key k' v d) = lookup_key k d.
Proof.
  intros Hne. induction d as [|[k0 v0] d IH]; simpl.
  - destruct (String.eqb_spec k k'); [contradiction|reflexivity].
  - destruct (String.eqb_spec k' k0) as [<-|Hk]; simpl.
    + destruct (String.eqb_spec k k'); [contradiction|reflexivity].
    + destruct (String.eqb k k0); [reflexivity|exact IH].
Qed.

(** X19. A load that does not raise leaves a store that later loads leave
    alone, and it never drops a record: [list_agents] gives after the load
    what it gave before, and an object keeps its other members. *)
Theorem ensure_storage_file_settles f f' :
  _ensure_storage_file f = (Ok tt, f') ->
  list_agents f' = list_agents f /\
  _ensure_storage_file f' = (Ok tt, f') /\
  (forall d, f = Parsed (JObj d) ->
     exists d', f' = Parsed (JObj d') /\
                forall k, k <> "agents" -> lookup_key k d' = lookup_key k d).
Proof.
  unfold _ensure_storage_file.
  destruct f as [|reason| |[| | |s|l|d]];
    cbn -[py_eq is_substring has_key set_key list_agents]; try discriminate.
  - intros [= <-]. repeat split. intros d Hd. discriminate.
  - intros [= <-]. repeat split. intros d Hd. discriminate.
  - destruct (is_substring "agents" s) eqn:E;
      cbn -[py_eq is_substring has_key set_key list_agents]; [|discriminate].
    intros [= <-]. cbn -[py_eq is_substring has_key set_key list_agents].
    rewrite E. repeat split. intros d Hd. discriminate.
  - destruct (existsb (py_eq (JStr "agents")) l) eqn:E;
      cbn -[py_eq is_substring has_key set_key list_agents]; [|discriminate].
    intros [= <-]. cbn -[py_eq is_substring has_key set_key list_agents].
    rewrite E. repeat split. intros d Hd. discriminate.
  - unfold has_key. destruct (lookup_key "agents" d) as [v|] eqn:E;
      cbn -[py_eq is_substring has_key set_key list_agents].
    + intros [= <-]. cbn -[py_eq is_substring has_key set_key list_agents].
      unfold has_key. rewrite E. repeat split.
      intros d' [= <-]. eauto.
    + intros [= <-]. cbn -[py_eq is_substring has_key set_key list_agents].
      unfold has_key. rewrite lookup_set_key.
      rewrite !list_agents_parsed. unfold get_or. rewrite lookup_set_key, E.
      repeat split. intros d' [= <-]. eexists. split; [reflexivity|].
      intros k Hk. now apply lookup_set_key_ne.
Qed.

Lemma ensure_storage_file_settles_witness :
  list_agents (Parsed empty_store) = list_agents Unparsable /\
  _ensure_storage_file (Parsed empty_store) = (Ok tt, Parsed empty_store).
Proof.
  destruct (ensure_storage_file_settles Unparsable (Parsed empty_store) eq_refl)
    as (Hlist & Hagain & _).
  split; [exact Hlist|exact Hagain].
Defined.

(** *** [get_agents_by_type] *)

Lemma of_type_records task_type records :
  (forall r, r ∈ records -> typed_by_string r = true) ->
  of_type task_type (List.map JObj records) =
    Ok (List.map JObj (List.filter (has_type task_type) records)).
Proof.
  induction records as [|r l IH]; intros H; simpl; [reflexivity|].
  assert (typed_by_string r = true) as Hr by (apply H; left).
  unfold typed_by_string in Hr. unfold has_type at 1.
  destruct (get_or "task_type" (JStr "") r); try discriminate.
  rewrite IH by (intros r' Hr'; apply H; now right). simpl.
  destruct (String.eqb _ _); reflexivity.
Qed.

Lemma of_type_raises task_type records :
  (exists r, r ∈ records /\ typed_by_string r = false) ->
  exists e, of_type task_type (List.map JObj records) = Raise e.
Proof.
  induction records as [|r l IH]; intros (r0 & Hr0 & Ht).
  - now apply not_elem_of_nil in Hr0.
  - simpl. unfold typed_by_string in *.
    destruct (get_or "task_type" (JStr "") r) eqn:E; try (eexists; reflexivity).
    apply elem_of_cons in Hr0 as [->|Hr0]; [rewrite E in Ht; discriminate|].
    destruct IH as [e ->]; [eauto|]. eexists. reflexivity.
Qed.

Lemma lower_char_twice c : lower_char (lower_char c) = lower_char c.
Proof. destruct c as [[] [] [] [] [] [] [] []]; reflexivity. Qed.

Lemma lower_twice s : lower (lower s) = lower s.
Proof. induction s as [|c s IH]; simpl; [reflexivity|]. now rewrite lower_char_twice, IH. Qed.

(** X20. When the task type of every record is a string or absent,
    [get_agents_by_type] returns, in their order, the records whose type
    equals the argument up to letter case; the letter case of the argument
    does not matter. *)
Theorem agents_by_type_filters f records task_type :
  list_agents f = JArr (List.map JObj records) ->
  (forall r, r ∈ records -> typed_by_string r = true) ->
  get_agents_by_type task_type f =
    List.map JObj (List.filter (has_type task_type) records) /\
  get_agents_by_type (lower task_type) f = get_agents_by_type task_type f.
Proof.
  intros Hlist Hall. unfold get_agents_by_type. rewrite Hlist. simpl.
  rewrite !of_type_records by exact Hall. simpl. split; [reflexivity|].
  f_equal. apply List.filter_ext. intros r. unfold has_type.
  destruct (get_or "task_type" (JStr "") r); try reflexivity.
  now rewrite lower_twice.
Qed.

Lemma agents_by_type_filters_witness :
  get_agents_by_type "MATH" (Parsed (JObj sample_store)) = [JObj math_agent].
Proof.
  destruct (agents_by_type_filters (Parsed (JObj sample_store)) sample_records "MATH")
    as [Hfilter _].
  - reflexivity.
  - intros r Hr. repeat (apply elem_of_cons in Hr as [->|Hr]; [reflexivity|]).
    now apply not_elem_of_nil in Hr.
  - exact Hfilter.
Defined.

(** X21. One record whose task type is not a string, such as [null], makes
    [get_agents_by_type] return the empty list for every type, also for the
    types that other records have. *)
Theorem agents_by_type_empty_on_odd_type f records task_type :
  list_agents f = JArr (List.map JObj records) ->
  (exists r, r ∈ records /\ typed_by_string r = false) ->
  get_agents_by_type task_type f = [].
Proof.
  intros Hlist Hodd. unfold get_agents_by_type. rewrite Hlist. simpl.
  destruct (of_type_raises task_type records Hodd) as [e ->]. reflexivity.
Qed.

Lemma agents_by_type_empty_on_odd_type_witness :
  has_type "math" math_agent = true /\
  get_agents_by_type "math" (Parsed (JObj draft_store)) = [].
Proof.
  split; [reflexivity|].
  apply (agents_by_type_empty_on_odd_type _ [math_agent; null_type_agent]).
  - reflexivity.
  - exists null_type_agent. split; [right; left|reflexivity].
Defined.

End StorageExtra.

(** ** The orchestrator and the store *)

Module OrchestratorExtra.
Import Text Py AgentStorage SimilaritySearch MasterAgent.
Import StorageFacts MatcherFacts OrchestratorFacts StorageExtra Samples.

Lemma nonempty_set_key k v d : nonempty (set_key k v d) = true.
Proof. destruct d as [|[k' v'] d]; simpl; [|destruct (String.eqb k k')]; reflexivity. Qed.

Lemma created_agent_marked (json_loads : string -> option json) (llm : capabilities)
    task_analysis agent :
  _create_new_agent json_loads llm task_analysis = Ok agent ->
  get "created_by" agent = JStr "MasterAgent" /\ nonempty agent = true.
Proof.
  rewrite create_new_agent_total. intros [= <-].
  destruct (answer (creator llm task_analysis)) as [text|]; [|split; reflexivity].
  destruct (json_loads text) as [[| | | | |d]|]; try (split; reflexivity).
  split; [|apply nonempty_set_key].
  unfold get, get_or. now rewrite lookup_set_key.
Qed.

(** X22. Every record that [_create_new_agent] returns is not empty and
    carries ["created_by": "MasterAgent"], whatever the Creator answered; the
    other members of an object that the Creator gave are kept. *)
Theorem created_agent_is_marked (json_loads : string -> option json) (llm : capabilities)
    task_analysis :
  exists agent,
    _create_new_agent json_loads llm task_analysis = Ok agent /\
    get "created_by" agent = JStr "MasterAgent" /\
    nonempty agent = true /\
    forall text d k,
      answer (creator llm task_analysis) = Some text ->
      json_loads text = Some (JObj d) ->
      k <> "created_by" -> lookup_key k agent = lookup_key k d.
Proof.
  destruct (_create_new_agent json_loads llm task_analysis) as [agent|e] eqn:E;
    [|rewrite create_new_agent_total in E; discriminate].
  exists agent. split; [reflexivity|].
  destruct (created_agent_marked _ _ _ _ E) as [Hby Hne].
  split; [exact Hby|]. split; [exact Hne|].
  intros text d k Htext Hd Hk. rewrite create_new_agent_total, Htext, Hd in E.
  injection E as <-. now apply lookup_set_key_ne.
Qed.

Lemma create_and_save_frame (json_loads : string -> option json) (llm : capabilities)
    analysis f :
  snd (create_and_save json_loads llm analysis f) = f \/
  exists agent,
    _create_new_agent json_loads llm analysis = Ok agent /\
    snd (create_and_save json_loads llm analysis f) = snd (save_agent agent f).
Proof.
  unfold create_and_save.
  destruct (_create_new_agent json_loads llm analysis) as [agent|e]; [|now left].
  destruct (nonempty agent); [|now left].
  right. exists agent. split; [reflexivity|].
  now destruct (save_agent agent f).
Qed.

Lemma find_or_create_frame (json_loads : string -> option json) (llm : capabilities)
    task_analysis f :
  snd (_find_or_create_agent json_loads llm task_analysis f) = f \/
  exists analysis agent,
    _create_new_agent json_loads llm analysis = Ok agent /\
    snd (_find_or_create_agent json_loads llm task_analysis f) = snd (save_agent agent f).
Proof.
  unfold _find_or_create_agent.
  destruct (as_dict task_analysis) as [analysis|e]; [|now left].
  destruct (negb _); [now left|]. cbv zeta.
  destruct (find_similar_agent_any _ _ _) as [[existing|]|e]; [| |now left].
  - destruct (nonempty existing); [now left|].
    destruct (create_and_save_frame json_loads llm analysis f) as [H|(agent & H1 & H2)]; eauto.
  - destruct (create_and_save_frame json_loads llm analysis f) as [H|(agent & H1 & H2)]; eauto.
Qed.

(** X23. One call of [process_request] leaves the storage file as it was, or
    as one [save_agent] of a record made by [_create_new_agent] leaves it; it
    never deletes or rewrites anything else. *)
Theorem process_request_saves_at_most_once (json_loads : string -> option json) (llm : capabilities)
    request f :
  snd (process_request json_loads llm request f) = f \/
  exists analysis agent,
    _create_new_agent json_loads llm analysis = Ok agent /\
    get "created_by" agent = JStr "MasterAgent" /\
    snd (process_request json_loads llm request f) = snd (save_agent agent f).
Proof.
  unfold process_request, handle_request.
  destruct (_analyze_task json_loads llm request) as [task_analysis|e]; [|now left].
  destruct (find_or_create_frame json_loads llm task_analysis f) as [H|(analysis & agent & H1 & H2)].
  - left. now destruct (_find_or_create_agent json_loads llm task_analysis f).
  - right. exists analysis, agent. split; [exact H1|].
    split; [apply (created_agent_marked _ _ _ _ H1)|].
    now destruct (_find_or_create_agent json_loads llm task_analysis f).
Qed.

(** X24. When the task analysis does not ask for delegation, the reply is
    that of [_handle_directly], and the storage file is not touched. *)
Theorem no_delegation_is_handled_directly (json_loads : string -> option json) (llm : capabilities)
    request analysis f :
  _analyze_task json_loads llm request = Ok (JObj analysis) ->
  truthy (get_or "requires_delegation" (JBool false) analysis) = false ->
  process_request json_loads llm request f = (_handle_directly llm request, f).
Proof.
  intros Ha Ht. unfold process_request, handle_request. rewrite Ha.
  unfold _find_or_create_agent. simpl as_dict. cbv iota. rewrite Ht. simpl.
  now rewrite handle_directly_total.
Qed.

Lemma as_dicts_records records : as_dicts (List.map JObj records) = Ok records.
Proof. induction records as [|r l IH]; simpl; [reflexivity|]. now rewrite IH. Qed.

Lemma find_any_records thr query records :
  find_similar_agent_any thr (JStr query) (JArr (List.map JObj records)) =
    Ok (find_similar_agent thr query records).
Proof.
  destruct records as [|r l]; [reflexivity|].
  unfold find_similar_agent_any.
  change (List.map JObj (r :: l)) with (JObj r :: List.map JObj l).
  cbn [truthy negb iterate bind as_dict].
  change (JObj r :: List.map JObj l) with (List.map JObj (r :: l)).
  now rewrite as_dicts_records.
Qed.

Lemma find_or_create_searches (json_loads : string -> option json) (llm : capabilities)
    analysis query records f :
  truthy (get_or "requires_delegation" (JBool false) analysis) = true ->
  get_or "agent_description" (JStr "") analysis = JStr query ->
  list_agents f = JArr (List.map JObj records) ->
  _find_or_create_agent json_loads llm (JObj analysis) f =
    match find_similar_agent default_threshold query records with
    | Some existing_agent =>
        if nonempty existing_agent then
          (bind (get_item "name" (JObj existing_agent))
                (fun _ => Ok (Some existing_agent)), f)
        else create_and_save json_loads llm analysis f
    | None => create_and_save json_loads llm analysis f
    end.
Proof.
  intros Ht Hq Hl. unfold _find_or_create_agent. simpl as_dict. cbv iota.
  rewrite Ht. cbn [negb]. cbv zeta. rewrite Hq, Hl, find_any_records. reflexivity.
Qed.

Lemma get_item_has_key k d :
  has_key k d = true -> exists v, get_item k (JObj d) = Ok v.
Proof.
  unfold has_key, get_item. destruct (lookup_key k d); [eauto|discriminate].
Qed.

Lemma has_key_nonempty k d : has_key k d = true -> nonempty d = true.
Proof. now destruct d. Qed.

(** X25. When the analysis asks for delegation and the matcher finds a
    stored record with a name for the described agent, the request goes to
    that record: the reply is that of [_delegate_task], the Creator is not
    used, and the storage file is not touched. *)
Theorem similar_agent_is_reused (json_loads : string -> option json) (llm : capabilities)
    request analysis query records agent f :
  _analyze_task json_loads llm request = Ok (JObj analysis) ->
  truthy (get_or "requires_delegation" (JBool false) analysis) = true ->
  get_or "agent_description" (JStr "") analysis = JStr query ->
  list_agents f = JArr (List.map JObj records) ->
  find_similar_agent default_threshold query records = Some agent ->
  has_key "name" agent = true ->
  process_request json_loads llm request f = (_delegate_task llm agent request, f).
Proof.
  intros Ha Ht Hq Hl Hfound Hname. unfold process_request, handle_request.
  rewrite Ha, (find_or_create_searches json_loads llm analysis query records f Ht Hq Hl), Hfound.
  rewrite (has_key_nonempty _ _ Hname).
  destruct (get_item_has_key _ _ Hname) as [v Hv]. rewrite Hv.
  cbn [bind]. rewrite (has_key_nonempty _ _ Hname), Hv. cbn [bind].
  now rewrite delegate_task_total.
Qed.

Lemma get_item_no_key k d :
  has_key k d = false -> get_item k (JObj d) = Raise (Exn KeyError (repr_str k)).
Proof.
  unfold has_key, get_item. destruct (lookup_key k d); [discriminate|reflexivity].
Qed.

Lemma has_key_set_key_ne k k' v d :
  k <> k' -> has_key k (set_key k' v d) = has_key k d.
Proof. intros H. unfold has_key. now rewrite lookup_set_key_ne. Qed.

(** X26. When no stored record matches and the Creator gives an object
    without ["name"], the record is handed to [save_agent] all the same, and
    the reply is the error sentence for the missing key, not an answer to the
    request. *)
Theorem nameless_agent_is_saved_and_reported (json_loads : string -> option json) (llm : capabilities)
    request analysis query records text d f :
  _analyze_task json_loads llm request = Ok (JObj analysis) ->
  truthy (get_or "requires_delegation" (JBool false) analysis) = true ->
  get_or "agent_description" (JStr "") analysis = JStr query ->
  list_agents f = JArr (List.map JObj records) ->
  find_similar_agent default_threshold query records = None ->
  answer (creator llm analysis) = Some text ->
  json_loads text = Some (JObj d) ->
  has_key "name" d = false ->
  process_request json_loads llm request f =
    (Ok "I encountered an error while processing your request: 'name'",
     snd (save_agent (set_key "created_by" (JStr "MasterAgent") d) f)).
Proof.
  intros Ha Ht Hq Hl Hnone Htext Hd Hname. unfold process_request, handle_request.
  rewrite Ha, (find_or_create_searches json_loads llm analysis query records f Ht Hq Hl), Hnone.
  unfold create_and_save. rewrite create_new_agent_total, Htext, Hd.
  rewrite nonempty_set_key.
  destruct (save_agent (set_key "created_by" (JStr "MasterAgent") d) f) as [b f'].
  rewrite get_item_no_key by (rewrite has_key_set_key_ne; [exact Hname|discriminate]).
  reflexivity.
Qed.

(** *** Runs *)

Lemma no_delegation_is_handled_directly_witness :
  let down := fun _ : string => Fails (Exn (OtherError "APIError") "offline") in
  let llm := Capabilities down (fun _ => down "")
               (fun _ _ => Responds (Some "Hello.")) in
  process_request (fun _ => None) llm "hi" Missing = (Ok "Hello.", Missing).
Proof.
  intros down llm.
  apply (no_delegation_is_handled_directly (fun _ => None) llm "hi"
           fallback_analysis Missing); reflexivity.
Defined.

Lemma similar_agent_is_reused_witness :
  let llm := Capabilities (fun _ => Responds (Some "{}"))
               (fun _ => Responds None)
               (fun _ _ => Responds (Some "x = 2")) in
  let f := Parsed (JObj [("agents", JArr [JObj math_agent; JObj math_agent_again])]) in
  process_request (fun _ => Some (JObj algebra_analysis)) llm "solve 2x = 4" f =
    (Ok "x = 2", f).
Proof.
  intros llm f.
  apply (similar_agent_is_reused (fun _ => Some (JObj algebra_analysis)) llm
           "solve 2x = 4" algebra_analysis math_query
           [math_agent; math_agent_again] math_agent f);
    try reflexivity.
  exact math_agent_found.
Defined.

Lemma nameless_agent_is_saved_and_reported_witness :
  let llm := Capabilities (fun _ => Responds (Some "analysis"))
               (fun _ => Responds (Some "{}"))
               (fun _ _ => Responds (Some "x = 2")) in
  let loads := fun text : string =>
    if String.eqb text "{}" then Some (JObj nameless_agent)
    else Some (JObj math_analysis) in
  let f := Parsed empty_store in
  process_request loads llm "solve 2x = 4" f =
    (Ok "I encountered an error while processing your request: 'name'",
     Parsed (JObj [("agents",
       JArr [JObj [("description", JStr "arithmetic helper");
                   ("created_by", JStr "MasterAgent")]])])).
Proof.
  intros llm loads f.
  apply (nameless_agent_is_saved_and_reported loads llm "solve 2x = 4"
           math_analysis "arithmetic helper" [] "{}" nameless_agent f); reflexivity.
Defined.

End OrchestratorExtra.

(** ** utils.py and base_agent.py *)

Module UtilsExtra.
Import Text TextShape Py Utils.

Lemma length_substring n s :
  String.length (String.substring 0 n s) = Nat.min n (String.length s).
Proof.
  revert n. induction s as [|c s IH]; intros [|n]; simpl; try reflexivity.
  now rewrite IH.
Qed.

Lemma length_append (s t : string) :
  String.length (s ++ t) = String.length s + String.length t.
Proof. induction s as [|c s IH]; simpl; [reflexivity|]. now rewrite IH. Qed.

Lemma length_slice_to text stop :
  Z.of_nat (String.length (slice_to text stop)) =
    let n := Z.of_nat (String.length text) in
    if (stop <? 0)%Z then Z.max (n + stop) 0 else Z.min stop n.
Proof.
  unfold slice_to. cbv zeta. rewrite length_substring.
  destruct (Z.ltb_spec stop 0); lia.
Qed.

(** X27. For a limit of at least 3, [truncate_text] returns a text within the
    limit: the text itself when it fits, else its first [max_length - 3]
    characters followed by three dots, which has exactly the limit as its
    length. *)
Theorem truncate_text_fits text max_length :
  (3 <= max_length)%Z ->
  let result := truncate_text text max_length in
  let n := Z.of_nat (String.length text) in
  (Z.of_nat (String.length result) <= max_length)%Z /\
  ((n <= max_length)%Z -> result = text) /\
  ((max_length < n)%Z ->
     result = String.substring 0 (Z.to_nat (max_length - 3)) text ++ "..." /\
     Z.of_nat (String.length result) = max_length).
Proof.
  intros H result n. subst result. unfold truncate_text. fold n.
  destruct (Z.leb_spec n max_length) as [Hle|Hgt].
  - split; [exact Hle|]. split; [reflexivity|]. lia.
  - pose proof (length_slice_to text (max_length - 3)) as Hs. cbv zeta in Hs.
    fold n in Hs. destruct (Z.ltb_spec (max_length - 3) 0) as [|_]; [lia|].
    rewrite length_append, Nat2Z.inj_add, Hs. simpl String.length.
    split; [lia|]. split; [lia|]. intros _. split; [|lia].
    unfold slice_to. destruct (Z.ltb_spec (max_length - 3) 0); [lia|reflexivity].
Qed.

Lemma truncate_text_fits_witness :
  truncate_text "a long request" 10 = "a long ...".
Proof.
  destruct (truncate_text_fits "a long request" 10) as (_ & _ & H); [lia|].
  destruct H as [H _]; [simpl; lia|]. exact H.
Defined.

(** X28. For a limit below 3, a text longer than the limit is not shortened
    to it: the result is longer than the limit. *)
Theorem truncate_text_overflows text max_length :
  (max_length < 3)%Z ->
  (max_length < Z.of_nat (String.length text))%Z ->
  (max_length < Z.of_nat (String.length (truncate_text text max_length)))%Z.
Proof.
  intros H Hgt. unfold truncate_text.
  destruct (Z.leb_spec (Z.of_nat (String.length text)) max_length); [lia|].
  pose proof (length_slice_to text (max_length - 3)) as Hs. cbv zeta in Hs.
  destruct (Z.ltb_spec (max_length - 3) 0) as [_|]; [|lia].
  rewrite length_append, Nat2Z.inj_add, Hs. simpl String.length. lia.
Qed.

Lemma truncate_text_overflows_witness :
  truncate_text "abcdef" 2 = "abcde..." /\
  (2 < Z.of_nat (String.length (truncate_text "abcdef" 2)))%Z.
Proof.
  split; [reflexivity|]. apply (truncate_text_overflows "abcdef" 2); simpl; lia.
Defined.

(** *** [sanitize_agent_name] *)

Lemma remove_outside_kept keep s : all_chars keep (remove_outside keep s) = true.
Proof.
  induction s as [|c s IH]; simpl; [reflexivity|].
  destruct (keep c) eqn:E; simpl; [now rewrite E|exact IH].
Qed.

Lemma remove_outside_fixed keep s :
  all_chars keep s = true -> remove_outside keep s = s.
Proof.
  induction s as [|c s IH]; simpl; [reflexivity|].
  destruct (keep c); simpl; [|discriminate]. intros H. now rewrite IH.
Qed.

Lemma sanitize_fixed s :
  all_chars name_char s = true -> starts_alpha s = true ->
  3 <= String.length s -> sanitize_agent_name s = s.
Proof.
  intros Hall Halpha Hlen. unfold sanitize_agent_name.
  rewrite (remove_outside_fixed _ _ Hall), Halpha.
  rewrite andb_false_r.
  destruct (Nat.ltb_spec (String.length s) 3); [lia|].
  destruct s; [discriminate|reflexivity].
Qed.

Lemma agent_prefix s :
  "Agent" ++ s = String "A" (String "g" (String "e" (String "n" (String "t" s)))).
Proof. reflexivity. Qed.

Lemma sanitize_good name :
  let result := sanitize_agent_name name in
  all_chars name_char result = true /\ starts_alpha result = true /\
  3 <= String.length result.
Proof.
  cbv zeta. unfold sanitize_agent_name.
  pose proof (remove_outside_kept name_char name) as Hall.
  destruct (remove_outside name_char name) as [|c s].
  { vm_compute. repeat split; lia. }
  cbn [String.eqb negb andb starts_alpha].
  destruct (is_alpha c) eqn:Ec; cbn [negb]; rewrite ?agent_prefix.
  - destruct s as [|c1 [|c2 s]]; cbn [String.length Nat.ltb Nat.leb];
      rewrite ?agent_prefix; cbn [String.eqb].
    + simpl in Hall |- *. rewrite andb_true_r in Hall. rewrite Hall.
      repeat split. lia.
    + simpl in Hall |- *. rewrite Hall. repeat split. lia.
    + split; [exact Hall|]. split; [simpl; exact Ec|]. simpl. lia.
  - cbn [String.length Nat.ltb Nat.leb String.eqb].
    simpl in Hall |- *. rewrite Hall. repeat split. lia.
Qed.

(** X29. [sanitize_agent_name] returns a name of at least three characters
    from [[a-zA-Z0-9_]] that starts with a letter, and returns such a name
    unchanged, so that sanitising twice is sanitising once. A name without
    any character of the class becomes ["Agent"]: the final default
    ["DefaultAgent"] is never what the last line chooses. *)
Theorem sanitize_agent_name_shape name :
  let result := sanitize_agent_name name in
  all_chars name_char result = true /\
  starts_alpha result = true /\
  3 <= String.length result /\
  sanitize_agent_name result = result /\
  (remove_outside name_char name = "" -> result = "Agent").
Proof.
  intros result. destruct (sanitize_good name) as (Hall & Halpha & Hlen).
  fold result in Hall, Halpha, Hlen.
  split; [exact Hall|]. split; [exact Halpha|]. split; [exact Hlen|].
  split; [now apply sanitize_fixed|].
  intros H. subst result. unfold sanitize_agent_name. now rewrite H.
Qed.

End UtilsExtra.

Module BaseAgentExtra.
Import Py BaseAgent.

(** X30. A [SpecializedAgent] comes back from its dictionary:
    [from_dict (to_dict a)] is [a]. In the other direction a dictionary is
    normalised: [to_dict (from_dict d)] has the seven keys of an agent, in
    their order, keeps the value of each key that [from_dict] reads and [d]
    has, and gives the same agent as [d]; every other key of [d], such as
    ["created_by"], is dropped. *)
Theorem agent_dict_round_trip :
  (forall a, from_dict (to_dict a) = a) /\
  (forall d,
     List.map fst (to_dict (from_dict d)) =
       ["name"; "description"; "created_at"; "last_used"; "type";
        "system_prompt"; "task_type"] /\
     (forall k, k ∈ agent_keys -> has_key k d = true ->
        lookup_key k (to_dict (from_dict d)) = lookup_key k d) /\
     from_dict (to_dict (from_dict d)) = from_dict d /\
     lookup_key "created_by" (to_dict (from_dict d)) = None).
Proof.
  split; [now intros []|]. intros d.
  split; [reflexivity|]. split; [|split; reflexivity].
  intros k Hk Hd. unfold agent_keys in Hk. unfold has_key in Hd.
  repeat (apply elem_of_cons in Hk as [->|Hk];
          [cbn; unfold get, get_or; now destruct (lookup_key _ d)|]).
  now apply not_elem_of_nil in Hk.
Qed.

End BaseAgentExtra.
